(** * FPB Store: the storefront controller of [Bookstore.tsx]

    A shallow embedding of the state held by the [Bookstore] component and of
    its event handlers, followed by the properties of the cart ledger, the
    notification log, the sales log and the recommendation search.

    Conventions of the embedding.
    - Every [useState] cell of the component is a field of [State]; a
      [setX(v)] or [setX(prev => ...)] is applied to the state at once, in
      program order.
    - JavaScript numbers that count things ([quantity], [pages]) are [Z];
      [rating] and the results of [Math.random()] are binary64 floating-point
      numbers, with the rounding of IEEE 754 arithmetic.
    - [uuidv4()], [new Date()] and [Math.random()] read an environment
      [Env]: the k-th call returns the k-th value of the corresponding
      source, and the state counts the calls made so far.
    - Each call of [handleSearch] owns a local array [newBooks]; the state
      keeps one such array per call, named by a search id. *)

From Stdlib Require Import List String Ascii Bool Arith ZArith Lia.
From Stdlib Require Import DecimalString DecimalPos Floats Uint63.
Import ListNotations.

Local Open Scope Z_scope.
Local Open Scope string_scope.
Local Open Scope list_scope.

(** ** Strings *)

(** The double quote character, as a one-character string. *)
Definition dquote : string := String "034"%char EmptyString.

(** The currency prefix of the price, byte for byte as the template literal
    of the source file has it: C3 A2, E2 80 9A, C2 A6, that is the characters
    U+00E2, U+201A and U+00A6 in UTF-8. *)
Definition currencyPrefix : string :=
  String "195"%char (String "162"%char
    (String "226"%char (String "128"%char (String "154"%char
      (String "194"%char (String "166"%char EmptyString)))))).

(** Template-literal interpolation of an integral number. *)
Definition string_of_Z (z : Z) : string := NilZero.string_of_int (Z.to_int z).

(** [includes s sub]: [sub] occurs in [s]. *)
Definition includes (s sub : string) : Prop :=
  exists pre post, s = (pre ++ sub ++ post)%string.

(** ** Floating-point numbers *)

(** The exact value of a finite binary64 number as mantissa and exponent:
    the number is [m * 2 ^ e]. Infinities and NaN, which none of the
    computations below can produce, are given as zero. *)
Definition exactParts (x : float) : Z * Z :=
  match Prim2SF x with
  | S754_finite s m e => ((if s then Z.neg m else Z.pos m), e)
  | _ => (0, 0)
  end.

(** [Math.floor(x)] of a finite number, as an integer. *)
Definition floorZ (x : float) : Z :=
  let (m, e) := exactParts x in
  if (0 <=? e)%Z then m * 2 ^ e else m / 2 ^ (- e).

(** The integer [n] of [x.toFixed(1)] for a finite [x >= 0]: the one for
    which [n / 10 - x] is closest to zero on the exact value of [x], the
    larger one when two are as close. *)
Definition roundTenths (x : float) : Z :=
  let (m, e) := exactParts x in
  if (0 <=? e)%Z then 10 * m * 2 ^ e
  else (20 * m + 2 ^ (- e)) / (2 * 2 ^ (- e)).

(** The binary64 number nearest to [n / 10]: what the unary plus makes of the
    digits that [toFixed(1)] prints. *)
Definition tenths (n : Z) : float :=
  (PrimFloat.of_uint63 (Uint63.of_Z n) / 10)%float.

(** A result of [Math.random()]: a number that is at least 0 and less
    than 1. *)
Record Unit01 := mkUnit01 {
  val : float;
  in_range : (PrimFloat.leb 0 val && PrimFloat.ltb val 1)%bool = true
}.

(** ** Data model ([types.ts] and the types of [Bookstore.tsx]) *)

Module Review.
Record t := mk { username : string; comment : string; rating : float }.
End Review.

Module Book.
Record t := mk {
  id : string;
  title : string;
  author : string;
  summary : string;
  price : string;
  coverImageUrl : string;
  category : string;
  rating : float;
  reviews : list Review.t;
  publicationDate : string;
  pages : Z;
  isBestseller : option bool
}.
End Book.

(** The argument of the per-item callback of [streamBookRecommendations]:
    the fields the generator supplies. *)
Module BookData.
Record t := mk {
  title : string;
  author : string;
  summary : string;
  category : string;
  publicationDate : string;
  pages : Z
}.
End BookData.

(** [type CartItem = Book & { quantity: number }]. *)
Module CartItem.
Record t := mk { book : Book.t; quantity : Z }.
Definition id (item : t) : string := Book.id (book item).
Definition title (item : t) : string := Book.title (book item).
End CartItem.

Module Notification.
Record t := mk { id : string; message : string; timestamp : Z; read : bool }.
End Notification.

(** An element of [salesData]. *)
Module Sale.
Record t := mk { bookId : string; timestamp : Z }.
End Sale.

Inductive View := store | cartView | checkout | login | admin.

(** A search id names one call of [handleSearch], that is one closure and its
    [newBooks] array. *)
Abbreviation SearchId := nat (only parsing).

Record State := mkState {
  displayedBooks : list Book.t;
  inventory : list Book.t;
  isLoading : bool;
  selectedBook : option Book.t;
  currentView : View;
  isAdmin : bool;
  salesData : list Sale.t;
  cart : list CartItem.t;
  notifications : list Notification.t;
  newBooks : SearchId -> list Book.t;
  uuid_calls : nat;
  date_calls : nat;
  random_calls : nat
}.

(** The sources of identifiers, time and randomness. *)
Record Env := mkEnv {
  uuidv4_at : nat -> string;
  Date_at : nat -> Z;
  Math_random_at : nat -> Unit01
}.

(** *** State setters *)

Definition setDisplayedBooks (v : list Book.t) (s : State) : State :=
  mkState v (inventory s) (isLoading s) (selectedBook s) (currentView s)
    (isAdmin s) (salesData s) (cart s) (notifications s) (newBooks s)
    (uuid_calls s) (date_calls s) (random_calls s).

Definition setInventory (f : list Book.t -> list Book.t) (s : State) : State :=
  mkState (displayedBooks s) (f (inventory s)) (isLoading s) (selectedBook s)
    (currentView s) (isAdmin s) (salesData s) (cart s) (notifications s)
    (newBooks s) (uuid_calls s) (date_calls s) (random_calls s).

Definition setIsLoading (v : bool) (s : State) : State :=
  mkState (displayedBooks s) (inventory s) v (selectedBook s) (currentView s)
    (isAdmin s) (salesData s) (cart s) (notifications s) (newBooks s)
    (uuid_calls s) (date_calls s) (random_calls s).

Definition setSelectedBook (v : option Book.t) (s : State) : State :=
  mkState (displayedBooks s) (inventory s) (isLoading s) v (currentView s)
    (isAdmin s) (salesData s) (cart s) (notifications s) (newBooks s)
    (uuid_calls s) (date_calls s) (random_calls s).

Definition setCurrentView (v : View) (s : State) : State :=
  mkState (displayedBooks s) (inventory s) (isLoading s) (selectedBook s) v
    (isAdmin s) (salesData s) (cart s) (notifications s) (newBooks s)
    (uuid_calls s) (date_calls s) (random_calls s).

Definition setIsAdmin (v : bool) (s : State) : State :=
  mkState (displayedBooks s) (inventory s) (isLoading s) (selectedBook s)
    (currentView s) v (salesData s) (cart s) (notifications s) (newBooks s)
    (uuid_calls s) (date_calls s) (random_calls s).

Definition setSalesData (f : list Sale.t -> list Sale.t) (s : State) : State :=
  mkState (displayedBooks s) (inventory s) (isLoading s) (selectedBook s)
    (currentView s) (isAdmin s) (f (salesData s)) (cart s) (notifications s)
    (newBooks s) (uuid_calls s) (date_calls s) (random_calls s).

Definition setCart (f : list CartItem.t -> list CartItem.t) (s : State) : State :=
  mkState (displayedBooks s) (inventory s) (isLoading s) (selectedBook s)
    (currentView s) (isAdmin s) (salesData s) (f (cart s)) (notifications s)
    (newBooks s) (uuid_calls s) (date_calls s) (random_calls s).

Definition setNotifications (f : list Notification.t -> list Notification.t)
    (s : State) : State :=
  mkState (displayedBooks s) (inventory s) (isLoading s) (selectedBook s)
    (currentView s) (isAdmin s) (salesData s) (cart s) (f (notifications s))
    (newBooks s) (uuid_calls s) (date_calls s) (random_calls s).

(** Assignment to the [newBooks] array of search [sid]. *)
Definition setNewBooks (sid : SearchId) (v : list Book.t) (s : State) : State :=
  mkState (displayedBooks s) (inventory s) (isLoading s) (selectedBook s)
    (currentView s) (isAdmin s) (salesData s) (cart s) (notifications s)
    (fun k => if Nat.eqb k sid then v else newBooks s k)
    (uuid_calls s) (date_calls s) (random_calls s).

(** ** The handler monad: state passing *)

Definition M (A : Type) : Type := State -> A * State.

Definition ret {A} (a : A) : M A := fun s => (a, s).

Definition bind {A B} (c : M A) (k : A -> M B) : M B :=
  fun s => let (a, s') := c s in k a s'.

Definition gets {A} (f : State -> A) : M A := fun s => (f s, s).

Definition modify (f : State -> State) : M unit := fun s => (tt, f s).

Definition exec {A} (c : M A) (s : State) : State := snd (c s).

Declare Scope handler_scope.
Delimit Scope handler_scope with handler.
Notation "x <- c ;; k" := (bind c (fun x => k))
  (at level 61, c at next level, right associativity) : handler_scope.
Notation "c ;; k" := (bind c (fun _ => k))
  (at level 61, right associativity) : handler_scope.
Local Open Scope handler_scope.

Section Controller.

Variable env : Env.

(** [const prebuiltBooks] of [./data/prebuiltBooks], the catalog shown at
    startup and after a failed search. *)
Variable prebuiltBooks : list Book.t.

(** *** Environment calls *)

Definition uuidv4 : M string :=
  fun s =>
    (uuidv4_at env (uuid_calls s),
     mkState (displayedBooks s) (inventory s) (isLoading s) (selectedBook s)
       (currentView s) (isAdmin s) (salesData s) (cart s) (notifications s)
       (newBooks s) (S (uuid_calls s)) (date_calls s) (random_calls s)).

Definition new_Date : M Z :=
  fun s =>
    (Date_at env (date_calls s),
     mkState (displayedBooks s) (inventory s) (isLoading s) (selectedBook s)
       (currentView s) (isAdmin s) (salesData s) (cart s) (notifications s)
       (newBooks s) (uuid_calls s) (S (date_calls s)) (random_calls s)).

Definition Math_random : M Unit01 :=
  fun s =>
    (Math_random_at env (random_calls s),
     mkState (displayedBooks s) (inventory s) (isLoading s) (selectedBook s)
       (currentView s) (isAdmin s) (salesData s) (cart s) (notifications s)
       (newBooks s) (uuid_calls s) (date_calls s) (S (random_calls s))).

(** The initial values of the [useState] cells. *)
Definition initialState : State :=
  mkState prebuiltBooks prebuiltBooks false None store false [] [] []
    (fun _ => []) 0 0 0.

(** *** Navigation *)

Definition handleSelectBook (book : Book.t) : M unit :=
  modify (setSelectedBook (Some book)).

Definition handleCloseModal : M unit := modify (setSelectedBook None).

Definition handleProceedToCheckout : M unit := modify (setCurrentView checkout).

Definition handleBackToStore : M unit := modify (setCurrentView store).

Definition handleLoginSuccess : M unit :=
  modify (setIsAdmin true) ;; modify (setCurrentView admin).

(** *** Notifications *)

(** The updater of [addNotification]: [[newNotification, ...prev.slice(0, 19)]]. *)
Definition pushNotification (newNotification : Notification.t)
    (prev : list Notification.t) : list Notification.t :=
  newNotification :: firstn 19 prev.

Definition addNotification (message : string) : M unit :=
  id <- uuidv4 ;;
  timestamp <- new_Date ;;
  modify (setNotifications
            (pushNotification (Notification.mk id message timestamp false))).

Definition handleDismissNotification (id : string) : M unit :=
  modify (setNotifications
            (filter (fun n => negb (Notification.id n =? id)%string))).

Definition handleMarkAsRead (id : string) : M unit :=
  modify (setNotifications
            (map (fun n =>
                    if (Notification.id n =? id)%string
                    then Notification.mk (Notification.id n)
                           (Notification.message n)
                           (Notification.timestamp n) true
                    else n))).

Definition handleMarkAllAsRead : M unit :=
  modify (setNotifications
            (map (fun n =>
                    Notification.mk (Notification.id n)
                      (Notification.message n)
                      (Notification.timestamp n) true))).

Definition handleClearAllNotifications : M unit :=
  modify (setNotifications (fun _ => [])).

(** *** Cart *)

Definition addedMessage (bookToAdd : Book.t) : string :=
  (dquote ++ Book.title bookToAdd ++ dquote ++ " added to cart.")%string.

Definition incrementLine (bookId : string) (item : CartItem.t) : CartItem.t :=
  if (CartItem.id item =? bookId)%string
  then CartItem.mk (CartItem.book item) (CartItem.quantity item + 1)
  else item.

Definition decrementLine (bookId : string) (item : CartItem.t) : CartItem.t :=
  if (CartItem.id item =? bookId)%string
  then CartItem.mk (CartItem.book item) (CartItem.quantity item - 1)
  else item.

Definition handleAddToCart (bookToAdd : Book.t) : M unit :=
  prevCart <- gets cart ;;
  match find (fun item => (CartItem.id item =? Book.id bookToAdd)%string)
          prevCart with
  | Some _ => modify (setCart (map (incrementLine (Book.id bookToAdd))))
  | None =>
      addNotification (addedMessage bookToAdd) ;;
      modify (setCart (fun prevCart => prevCart ++ [CartItem.mk bookToAdd 1]))
  end.

Definition handleRemoveFromCart (bookToRemove : Book.t) : M unit :=
  modify (setCart
            (filter (fun item =>
                       negb (CartItem.id item =? Book.id bookToRemove)%string))).

Definition handleIncreaseQuantity (bookId : string) : M unit :=
  modify (setCart (map (incrementLine bookId))).

Definition handleDecreaseQuantity (bookId : string) : M unit :=
  modify (setCart (fun prevCart =>
    match find (fun item => (CartItem.id item =? bookId)%string) prevCart with
    | Some itemToDecrease =>
        if (1 <? CartItem.quantity itemToDecrease)%Z
        then map (decrementLine bookId) prevCart
        else filter (fun item => negb (CartItem.id item =? bookId)%string)
               prevCart
    | None =>
        filter (fun item => negb (CartItem.id item =? bookId)%string) prevCart
    end)).

(** [cart.reduce((total, item) => total + item.quantity, 0)]. *)
Definition totalCartItems (s : State) : Z :=
  fold_left (fun total item => total + CartItem.quantity item) (cart s) 0.

(** *** Checkout *)

Definition saleMessage (item : CartItem.t) : string :=
  ("New Sale: " ++ dquote ++ CartItem.title item ++ dquote ++ " (x"
   ++ string_of_Z (CartItem.quantity item) ++ ")")%string.

(** [for (let i = 0; i < item.quantity; i++) newSales.push({...})]: with an
    integral bound the body runs [max 0 quantity] times; [count] is the
    number of iterations left and [newSales] the array built so far. *)
Fixpoint pushSales (count : nat) (bookId : string) (newSales : list Sale.t)
    : M (list Sale.t) :=
  match count with
  | O => ret newSales
  | S k =>
      timestamp <- new_Date ;;
      pushSales k bookId (newSales ++ [Sale.mk bookId timestamp])
  end.

(** The body of [cart.forEach(item => ...)], threading [newSales]. *)
Fixpoint recordItems (items : list CartItem.t) (newSales : list Sale.t)
    : M (list Sale.t) :=
  match items with
  | [] => ret newSales
  | item :: rest =>
      newSales' <- pushSales (Z.to_nat (CartItem.quantity item))
                     (CartItem.id item) newSales ;;
      addNotification (saleMessage item) ;;
      recordItems rest newSales'
  end.

Definition handleConfirmCartPurchase : M unit :=
  items <- gets cart ;;
  newSales <- recordItems items [] ;;
  modify (setSalesData (fun prevSales => prevSales ++ newSales)) ;;
  modify (setCart (fun _ => [])) ;;
  modify (setCurrentView store).

(** *** Search *)

(** [(Math.floor(Math.random() * (40 - 15 + 1)) + 15) * 1000] after the
    currency prefix. The product is the binary64 product; its floor is at
    most 26, so that the sum and the last product are exact and print as
    their decimal digits. *)
Definition priceOf (r : Unit01) : string :=
  (currencyPrefix
   ++ string_of_Z ((floorZ (val r * (40 - 15 + 1))%float + 15) * 1000))%string.

(** [+(Math.random() * (5 - 3.5) + 3.5).toFixed(1)]: the binary64 product and
    sum, rounded to one decimal on their exact value and read back as a
    number. *)
Definition ratingOf (r : Unit01) : float :=
  tenths (roundTenths (val r * (5 - 3.5) + 3.5)%float).

Definition coverOf (newId : string) : string :=
  ("https://picsum.photos/seed/" ++ newId ++ "/600/800")%string.

(** [Math.random() < 0.2]; the literal is the binary64 number nearest to
    0.2. *)
Definition bestsellerOf (r : Unit01) : bool :=
  PrimFloat.ltb (val r) 0x1.999999999999ap-3%float.

(** The object literal of the callback: the fields of [bookData] spread,
    then the synthesized ones. *)
Definition makeBook (bookData : BookData.t) (newId : string)
    (r1 r2 r3 : Unit01)
    : Book.t :=
  Book.mk newId (BookData.title bookData) (BookData.author bookData)
    (BookData.summary bookData) (priceOf r1) (coverOf newId)
    (BookData.category bookData) (ratingOf r2) []
    (BookData.publicationDate bookData) (BookData.pages bookData)
    (Some (bestsellerOf r3)).

(** [handleSearch] up to the call of the stream: the loading flag, the
    emptied display and the fresh [newBooks] array of this call. *)
Definition handleSearch_begin (sid : SearchId) : M unit :=
  modify (setIsLoading true) ;;
  modify (setDisplayedBooks []) ;;
  modify (setNewBooks sid []).

(** The callback passed to [streamBookRecommendations] by call [sid]. *)
Definition onItem (sid : SearchId) (bookData : BookData.t) : M unit :=
  newId <- uuidv4 ;;
  r1 <- Math_random ;;
  r2 <- Math_random ;;
  r3 <- Math_random ;;
  acc <- gets (fun s => newBooks s sid) ;;
  modify (setNewBooks sid (acc ++ [makeBook bookData newId r1 r2 r3])) ;;
  copy <- gets (fun s => newBooks s sid) ;;
  modify (setDisplayedBooks copy).

(** The merge filter of the inventory update. *)
Definition unseenIn (prev : list Book.t) (nb : Book.t) : bool :=
  negb (existsb (fun ib => (Book.id ib =? Book.id nb)%string) prev).

(** After the awaited stream resolved: the inventory merge, then [finally]. *)
Definition handleSearch_resolve (sid : SearchId) : M unit :=
  acc <- gets (fun s => newBooks s sid) ;;
  modify (setInventory (fun prev => prev ++ filter (unseenIn prev) acc)) ;;
  modify (setIsLoading false).

(** After the awaited stream rejected: the [catch] branch (the error goes
    to the console), then [finally]. *)
Definition handleSearch_reject (sid : SearchId) : M unit :=
  modify (setDisplayedBooks prebuiltBooks) ;;
  modify (setIsLoading false).

End Controller.

(** *** The recommendation stream *)

(** A raw payload of the generator: any of its fields may be missing. *)
Module RawPayload.
Record t := mk {
  title : option string;
  author : option string;
  summary : option string;
  category : option string;
  publicationDate : option string;
  pages : option Z
}.
End RawPayload.






(** *** Interleaved searches *)

(** The moments at which a search touches the state: its start, each
    invocation of its callback, and the settling of the awaited promise. *)
Inductive SearchEvent :=
| searchStarted (sid : SearchId)
| itemArrived (sid : SearchId) (bookData : BookData.t)
| searchResolved (sid : SearchId)
| searchRejected (sid : SearchId).

Definition searchStep (env : Env) (prebuiltBooks : list Book.t)
    (e : SearchEvent) : M unit :=
  match e with
  | searchStarted sid => handleSearch_begin sid
  | itemArrived sid bookData => onItem env sid bookData
  | searchResolved sid => handleSearch_resolve sid
  | searchRejected sid => handleSearch_reject prebuiltBooks sid
  end.

Fixpoint runSearchEvents (env : Env) (prebuiltBooks : list Book.t)
    (es : list SearchEvent) : M unit :=
  match es with
  | [] => ret tt
  | e :: rest =>
      searchStep env prebuiltBooks e ;; runSearchEvents env prebuiltBooks rest
  end.

(** *** Sequences of cart operations *)

Inductive CartOp :=
| add (book : Book.t)
| increase (bookId : string)
| decrease (bookId : string)
| remove (book : Book.t).

Definition applyCartOp (env : Env) (op : CartOp) : M unit :=
  match op with
  | add book => handleAddToCart env book
  | increase bookId => handleIncreaseQuantity bookId
  | decrease bookId => handleDecreaseQuantity bookId
  | remove book => handleRemoveFromCart book
  end.

Fixpoint runCartOps (env : Env) (ops : list CartOp) : M unit :=
  match ops with
  | [] => ret tt
  | op :: rest => applyCartOp env op ;; runCartOps env rest
  end.

(** [push] of a sequence of messages. *)
Fixpoint pushAll (env : Env) (messages : list string) : M unit :=
  match messages with
  | [] => ret tt
  | m :: rest => addNotification env m ;; pushAll env rest
  end.

(** ** Specification-side notions *)

(** The sum of the quantities of the lines of a cart. *)
Fixpoint sumQuantities (items : list CartItem.t) : Z :=
  match items with
  | [] => 0
  | item :: rest => CartItem.quantity item + sumQuantities rest
  end.

(** The ids of the lines of a cart, in order. *)
Definition lineIds (items : list CartItem.t) : list string :=
  map CartItem.id items.

(** Cart invariant: one line per book id, every quantity positive. *)
Definition cartWellFormed (items : list CartItem.t) : Prop :=
  NoDup (lineIds items) /\ Forall (fun item => 0 < CartItem.quantity item) items.

(** The notification object built by [addNotification message] in state [s]:
    the next identifier and the next clock reading. *)
Definition freshNotification (env : Env) (message : string) (s : State)
    : Notification.t :=
  Notification.mk (uuidv4_at env (uuid_calls s)) message
    (Date_at env (date_calls s)) false.

(** The capacity of the notification log. *)
Definition notificationCap : nat := 20.

(** The log after pushing the notifications [notes] one after the other,
    the first of them first. *)
Definition pushEach (notes : list Notification.t)
    (log : list Notification.t) : list Notification.t :=
  fold_left (fun log n => pushNotification n log) notes log.

(** The number of units of a line, as the checkout loop counts them. *)
Definition units (item : CartItem.t) : nat := Z.to_nat (CartItem.quantity item).

(** [count] sale records of one book, stamped by the clock readings from the
    [d]-th on. *)
Fixpoint salesFrom (env : Env) (d : nat) (count : nat) (bookId : string)
    : list Sale.t :=
  match count with
  | O => []
  | S k => Sale.mk bookId (Date_at env d) :: salesFrom env (S d) k bookId
  end.

(** The sale records of the lines [items], when the clock has been read [d]
    times before: each line reads it once per unit, then once more for its
    notification. *)
Fixpoint recordedSales (env : Env) (d : nat) (items : list CartItem.t)
    : list Sale.t :=
  match items with
  | [] => []
  | item :: rest =>
      salesFrom env d (units item) (CartItem.id item)
      ++ recordedSales env (S (d + units item)) rest
  end.

(** The sale notifications of the lines [items], in the order of emission,
    when [u] identifiers have been drawn and the clock read [d] times. *)
Fixpoint recordedNotes (env : Env) (u d : nat) (items : list CartItem.t)
    : list Notification.t :=
  match items with
  | [] => []
  | item :: rest =>
      Notification.mk (uuidv4_at env u) (saleMessage item)
        (Date_at env (d + units item)) false
      :: recordedNotes env (S u) (S (d + units item)) rest
  end.

(** The number of clock readings of a checkout of [items]. *)
Fixpoint clockReads (items : list CartItem.t) : nat :=
  match items with
  | [] => 0
  | item :: rest => S (units item + clockReads rest)
  end.

(** A sale record stamped by one of the clock readings [lo], ..., [hi - 1]. *)
Definition stampedWithin (env : Env) (lo hi : nat) (sale : Sale.t) : Prop :=
  exists k, (lo <= k < hi)%nat /\ Sale.timestamp sale = Date_at env k.

(** The fields of a book that come from the generator. *)
Definition dataOf (b : Book.t) : BookData.t :=
  BookData.mk (Book.title b) (Book.author b) (Book.summary b)
    (Book.category b) (Book.publicationDate b) (Book.pages b).

(** The book that the callback builds from [bookData] when [u] identifiers
    and [r] random numbers have been drawn before. *)
Definition bookAt (env : Env) (u r : nat) (bookData : BookData.t) : Book.t :=
  makeBook bookData (uuidv4_at env u) (Math_random_at env r)
    (Math_random_at env (S r)) (Math_random_at env (S (S r))).

(** An arrival: the search whose callback is invoked, and its argument. *)
Definition Arrival : Type := SearchId * BookData.t.

Definition arrive (a : Arrival) : SearchEvent := itemArrived (fst a) (snd a).

(** The books that the arrivals add to the array of search [sid]. Every
    arrival, of whichever search, draws one identifier and three random
    numbers. *)
Fixpoint ingested (env : Env) (u r : nat) (sid : SearchId)
    (arrivals : list Arrival) : list Book.t :=
  match arrivals with
  | [] => []
  | a :: rest =>
      (if Nat.eqb sid (fst a) then [bookAt env u r (snd a)] else [])
      ++ ingested env (S u) (S (S (S r))) sid rest
  end.

(** The search of the last arrival, if any. *)
Fixpoint lastWriter (arrivals : list Arrival) : option SearchId :=
  match arrivals with
  | [] => None
  | a :: rest =>
      match lastWriter rest with
      | Some who => Some who
      | None => Some (fst a)
      end
  end.

(** What can happen between the start of a second search and its end while
    the first search is still pending: an item of either search arrives, or
    the first search ends, gracefully or by a failure. *)
Inductive Overlap :=
| firstItem (bookData : BookData.t)
| secondItem (bookData : BookData.t)
| firstResolved
| firstRejected.

Definition overlapEvent (sid1 sid2 : SearchId) (o : Overlap) : SearchEvent :=
  match o with
  | firstItem bookData => itemArrived sid1 bookData
  | secondItem bookData => itemArrived sid2 bookData
  | firstResolved => searchResolved sid1
  | firstRejected => searchRejected sid1
  end.

(** The last of the overlapping events that writes the displayed list, if
    any: every one of them does, except the graceful end of the first
    search. *)
Fixpoint lastWrite (ov : list Overlap) : option Overlap :=
  match ov with
  | [] => None
  | o :: rest =>
      match lastWrite rest with
      | Some w => Some w
      | None =>
          match o with
          | firstResolved => None
          | _ => Some o
          end
      end
  end.

(** The items of the first search among the overlapping events, in order. *)
Definition firstItems (ov : list Overlap) : list BookData.t :=
  flat_map (fun o => match o with
                     | firstItem bookData => [bookData]
                     | _ => []
                     end) ov.

(** The items of the second search among the overlapping events, in order. *)
Definition secondItems (ov : list Overlap) : list BookData.t :=
  flat_map (fun o => match o with
                     | secondItem bookData => [bookData]
                     | _ => []
                     end) ov.


(** ** Sample data *)

Module Sample.

Definition env : Env :=
  mkEnv (fun k => ("uuid-" ++ string_of_Z (Z.of_nat k))%string)
        (fun k => 1700000000000 + Z.of_nat k)
        (fun k => match Nat.modulo k 3 with
                  | O => mkUnit01 0.5%float eq_refl
                  | 1%nat => mkUnit01 0.25%float eq_refl
                  | _ => mkUnit01 0.75%float eq_refl
                  end).

Definition bookA : Book.t :=
  Book.mk "A" "Algorithms" "Ada" "On algorithms." "N20000" "a.png"
    "Computer Science" 4.5%float [] "2001" 300 None.

Definition bookB : Book.t :=
  Book.mk "B" "Botany" "Bo" "On plants." "N15000" "b.png"
    "Science" 4%float [] "1999" 120 (Some true).

Definition prebuilt : list Book.t := [bookA; bookB].

Definition start : State := initialState prebuilt.

Definition dataC : BookData.t :=
  BookData.mk "Calculus" "Cy" "On limits." "Mathematics" "2010" 410.

Definition dataD : BookData.t :=
  BookData.mk "Dynamics" "Di" "On motion." "Physics" "2015" 250.

Definition dataE : BookData.t :=
  BookData.mk "Ecology" "Eve" "On habitats." "Science" "2020" 190.


(** A state whose cart holds two units of A and one of B. *)
Definition withCart : State :=
  setCart (fun _ => [CartItem.mk bookA 2; CartItem.mk bookB 1]) start.


End Sample.

(** ** The rest of the controller *)

(** The inline handlers of the rendered tree. *)

(** [onClick={() => setCurrentView('cart')}] of the cart button, and
    [onBackToCart] of the checkout page. *)
Definition openCart : M unit := modify (setCurrentView cartView).

(** [onClick={() => setCurrentView('login')}] of the admin login button. *)
Definition openLogin : M unit := modify (setCurrentView login).

(** [onLogout={() => { setIsAdmin(false); setCurrentView('store') }}]. *)
Definition handleLogout : M unit :=
  bind (modify (setIsAdmin false)) (fun _ => modify (setCurrentView store)).

(** [totalCartItems > 0 && <span>...</span>]: the badge of the cart button. *)
Definition showsBadge (s : State) : bool := (0 <? totalCartItems s)%Z.

(** [isLoading && displayedBooks.length === 0]: the spinner replaces the
    grid. *)
Definition showsSpinner (s : State) : bool :=
  isLoading s && Nat.eqb (List.length (displayedBooks s)) 0.

(** The search an event belongs to. *)
Definition searchOf (e : SearchEvent) : SearchId :=
  match e with
  | searchStarted sid => sid
  | itemArrived sid _ => sid
  | searchResolved sid => sid
  | searchRejected sid => sid
  end.

(** Everything that can happen to the controller: a cart operation, a moment
    of a search, a handler of the notification panel, the checkout, or a
    change of screen. *)
Inductive Action :=
| cartAction (op : CartOp)
| searchAction (e : SearchEvent)
| confirmCartPurchase
| dismissNotification (id : string)
| markAsRead (id : string)
| markAllAsRead
| clearAllNotifications
| selectBook (book : Book.t)
| closeModal
| proceedToCheckout
| backToStore
| viewCart
| viewLogin
| loginSuccess
| logout.

Definition act (env : Env) (prebuiltBooks : list Book.t) (a : Action)
    : M unit :=
  match a with
  | cartAction op => applyCartOp env op
  | searchAction e => searchStep env prebuiltBooks e
  | confirmCartPurchase => handleConfirmCartPurchase env
  | dismissNotification id => handleDismissNotification id
  | markAsRead id => handleMarkAsRead id
  | markAllAsRead => handleMarkAllAsRead
  | clearAllNotifications => handleClearAllNotifications
  | selectBook book => handleSelectBook book
  | closeModal => handleCloseModal
  | proceedToCheckout => handleProceedToCheckout
  | backToStore => handleBackToStore
  | viewCart => openCart
  | viewLogin => openLogin
  | loginSuccess => handleLoginSuccess
  | logout => handleLogout
  end.

Fixpoint runActions (env : Env) (prebuiltBooks : list Book.t)
    (actions : list Action) : M unit :=
  match actions with
  | [] => ret tt
  | a :: rest =>
      bind (act env prebuiltBooks a)
        (fun _ => runActions env prebuiltBooks rest)
  end.

(** The notifications created by pushing [messages] in turn, oldest first,
    when [u] identifiers have been drawn and the clock read [d] times. *)
Fixpoint pushedNotes (env : Env) (u d : nat) (messages : list string)
    : list Notification.t :=
  match messages with
  | [] => []
  | m :: rest =>
      Notification.mk (uuidv4_at env u) m (Date_at env d) false
      :: pushedNotes env (S u) (S d) rest
  end.

(** The read flags of a log never go from read to unread between [before]
    and [after], entry by entry. *)
Definition readMonotone (before after : list Notification.t) : Prop :=
  Forall2 (fun b a => Notification.id a = Notification.id b
                      /\ Notification.message a = Notification.message b
                      /\ Notification.timestamp a = Notification.timestamp b
                      /\ (Notification.read b = true
                          -> Notification.read a = true))
    before after.

(** The ids of a log are pairwise distinct and were all issued by the
    identifier source among its first [u] identifiers. *)
Definition logIdsIssued (env : Env) (u : nat) (log : list Notification.t)
    : Prop :=
  NoDup (map Notification.id log)
  /\ Forall (fun n => exists k, (k < u)%nat
                                /\ Notification.id n = uuidv4_at env k) log.

(** The sale notification of a line: its message is the fixed text around
    the title and the decimal digits of the quantity, it is unread, its id
    is one of the identifiers [ulo], ..., [uhi - 1] of the source and its
    timestamp one of the clock readings [dlo], ..., [dhi - 1]. *)
Definition saleNoteOf (env : Env) (ulo uhi dlo dhi : nat)
    (item : CartItem.t) (n : Notification.t) : Prop :=
  (exists digits,
     Notification.message n
     = ("New Sale: " ++ dquote ++ CartItem.title item ++ dquote ++ " (x"
        ++ digits ++ ")")%string
     /\ NilZero.int_of_string digits = Some (Z.to_int (CartItem.quantity item)))
  /\ Notification.read n = false
  /\ (exists k, (ulo <= k < uhi)%nat /\ Notification.id n = uuidv4_at env k)
  /\ (exists d, (dlo <= d < dhi)%nat
                /\ Notification.timestamp n = Date_at env d).

(** More sample data. *)
Module SampleMore.

(** Two results of the random source at which the binary64 arithmetic and
    the arithmetic on exact values part: 866076851417403 / 2^50 and
    1426139882000657 / 2^51. *)
Definition lowRoll : Unit01 :=
  mkUnit01 (PrimFloat.of_uint63 866076851417403
            / PrimFloat.of_uint63 1125899906842624)%float eq_refl.

Definition highRoll : Unit01 :=
  mkUnit01 (PrimFloat.of_uint63 1426139882000657
            / PrimFloat.of_uint63 2251799813685248)%float eq_refl.


(** A log with one read and one unread notification. *)
Definition log : list Notification.t :=
  [Notification.mk "n2" "second" 20 false;
   Notification.mk "n1" "first" 10 true].

Definition withLog : State := setNotifications (fun _ => log) Sample.start.

(** A state whose cart holds three units of A. *)
Definition threeOfA : State :=
  setCart (fun _ => [CartItem.mk Sample.bookA 3]) Sample.start.

(** An identifier source that never repeats: the k-th identifier is made of k
    letters. *)
Fixpoint tally (k : nat) : string :=
  match k with
  | O => EmptyString
  | S k' => String "u"%char (tally k')
  end.

Definition env : Env :=
  mkEnv tally (Date_at Sample.env) (Math_random_at Sample.env).

End SampleMore.

(** Reduction of the projections of an explicit state, and nothing else. *)
Ltac state_fields :=
  cbn [displayedBooks inventory isLoading selectedBook currentView isAdmin
       salesData cart notifications newBooks uuid_calls date_calls
       random_calls fst snd].

Tactic Notation "state_fields" "in" hyp(H) :=
  cbn [displayedBooks inventory isLoading selectedBook currentView isAdmin
       salesData cart notifications newBooks uuid_calls date_calls
       random_calls fst snd] in H.

(** ** Cart ledger *)

Section CartLedger.

Variable env : Env.

Lemma exec_bind {A B} (c : M A) (k : A -> M B) (s : State) :
  exec (bind c k) s = exec (k (fst (c s))) (snd (c s)).
Proof. unfold exec, bind. destruct (c s); reflexivity. Qed.

Lemma fold_left_quantities (items : list CartItem.t) (acc : Z) :
  fold_left (fun total item => total + CartItem.quantity item) items acc
  = acc + sumQuantities items.
Proof.
  revert acc; induction items as [|item rest IH]; intros acc; simpl.
  - lia.
  - rewrite IH. lia.
Qed.

Lemma totalCartItems_sum (s : State) :
  totalCartItems s = sumQuantities (cart s).
Proof. unfold totalCartItems. rewrite fold_left_quantities. lia. Qed.

Lemma lineIds_increment (bookId : string) (items : list CartItem.t) :
  lineIds (map (incrementLine bookId) items) = lineIds items.
Proof.
  unfold lineIds. rewrite map_map. apply map_ext. intros item.
  unfold incrementLine. destruct (CartItem.id item =? bookId)%string; reflexivity.
Qed.

Lemma lineIds_decrement (bookId : string) (items : list CartItem.t) :
  lineIds (map (decrementLine bookId) items) = lineIds items.
Proof.
  unfold lineIds. rewrite map_map. apply map_ext. intros item.
  unfold decrementLine. destruct (CartItem.id item =? bookId)%string; reflexivity.
Qed.

Lemma NoDup_lineIds_filter (p : CartItem.t -> bool) (items : list CartItem.t) :
  NoDup (lineIds items) -> NoDup (lineIds (filter p items)).
Proof.
  unfold lineIds. induction items as [|item rest IH]; simpl; intros H.
  - constructor.
  - inversion H as [|x l Hnotin Hrest]; subst.
    destruct (p item); simpl; auto.
    constructor; auto.
    intros Hin. apply Hnotin.
    apply in_map_iff in Hin. destruct Hin as [y [Hy Hyin]].
    apply filter_In in Hyin. apply in_map_iff. exists y. tauto.
Qed.

Lemma find_none_lineIds (bookId : string) (items : list CartItem.t) :
  find (fun item => (CartItem.id item =? bookId)%string) items = None ->
  ~ In bookId (lineIds items).
Proof.
  intros Hfind Hin. unfold lineIds in Hin.
  apply in_map_iff in Hin. destruct Hin as [item [Hid Hitem]].
  pose proof (find_none _ _ Hfind item Hitem) as Hne. simpl in Hne.
  rewrite Hid, String.eqb_refl in Hne. discriminate.
Qed.

Lemma NoDup_lineIds_same (items : list CartItem.t) (x y : CartItem.t) :
  NoDup (lineIds items) -> In x items -> In y items ->
  CartItem.id x = CartItem.id y -> x = y.
Proof.
  unfold lineIds. induction items as [|item rest IH]; simpl; intros Hnd Hx Hy Hid.
  - contradiction.
  - inversion Hnd as [|h l Hnotin Hrest]; subst.
    destruct Hx as [Hx|Hx], Hy as [Hy|Hy]; subst; auto.
    + exfalso. apply Hnotin. rewrite Hid. now apply in_map.
    + exfalso. apply Hnotin. rewrite <- Hid. now apply in_map.
Qed.

Lemma wellFormed_increment (bookId : string) (items : list CartItem.t) :
  cartWellFormed items -> cartWellFormed (map (incrementLine bookId) items).
Proof.
  intros [Hnd Hpos]. split.
  - now rewrite lineIds_increment.
  - apply Forall_forall. intros x Hx. apply in_map_iff in Hx.
    destruct Hx as [item [Heq Hin]]. subst x.
    rewrite Forall_forall in Hpos. specialize (Hpos item Hin).
    unfold incrementLine. destruct (CartItem.id item =? bookId)%string; simpl; lia.
Qed.

Lemma wellFormed_filter (p : CartItem.t -> bool) (items : list CartItem.t) :
  cartWellFormed items -> cartWellFormed (filter p items).
Proof.
  intros [Hnd Hpos]. split.
  - now apply NoDup_lineIds_filter.
  - apply Forall_forall. intros x Hx. apply filter_In in Hx.
    rewrite Forall_forall in Hpos. apply Hpos. tauto.
Qed.

Lemma wellFormed_append (b : Book.t) (items : list CartItem.t) :
  cartWellFormed items -> ~ In (Book.id b) (lineIds items) ->
  cartWellFormed (items ++ [CartItem.mk b 1]).
Proof.
  intros [Hnd Hpos] Hfresh. split.
  - unfold lineIds in *. rewrite map_app. simpl.
    apply NoDup_app; [exact Hnd | | ].
    + constructor; [intros [] | constructor].
    + intros x Hx [Hy|[]]. subst x. now apply Hfresh.
  - apply Forall_app. split; [exact Hpos|].
    constructor; [simpl; lia | constructor].
Qed.

Lemma wellFormed_decrement (bookId : string) (items : list CartItem.t)
    (found : CartItem.t) :
  cartWellFormed items ->
  find (fun item => (CartItem.id item =? bookId)%string) items = Some found ->
  1 < CartItem.quantity found ->
  cartWellFormed (map (decrementLine bookId) items).
Proof.
  intros [Hnd Hpos] Hfind Hq. split.
  - now rewrite lineIds_decrement.
  - apply find_some in Hfind. destruct Hfind as [Hfin Hfid].
    apply String.eqb_eq in Hfid.
    apply Forall_forall. intros x Hx. apply in_map_iff in Hx.
    destruct Hx as [item [Heq Hin]]. subst x.
    rewrite Forall_forall in Hpos. specialize (Hpos item Hin).
    unfold decrementLine.
    destruct (CartItem.id item =? bookId)%string eqn:E; simpl; auto.
    apply String.eqb_eq in E.
    assert (item = found) by (apply (NoDup_lineIds_same items); congruence).
    subst item. lia.
Qed.

Lemma cart_after_add (b : Book.t) (s : State) :
  cart (exec (handleAddToCart env b) s)
  = match find (fun item => (CartItem.id item =? Book.id b)%string) (cart s) with
    | Some _ => map (incrementLine (Book.id b)) (cart s)
    | None => cart s ++ [CartItem.mk b 1]
    end.
Proof.
  unfold handleAddToCart, exec, bind, gets. simpl.
  destruct (find _ (cart s)); reflexivity.
Qed.

Lemma wellFormed_step (op : CartOp) (s : State) :
  cartWellFormed (cart s) -> cartWellFormed (cart (exec (applyCartOp env op) s)).
Proof.
  intros Hwf. destruct op as [b|bookId|bookId|b]; simpl.
  - rewrite cart_after_add.
    destruct (find _ (cart s)) eqn:Hfind.
    + now apply wellFormed_increment.
    + apply wellFormed_append; auto. now apply find_none_lineIds.
  - now apply wellFormed_increment.
  - unfold handleDecreaseQuantity, exec, modify. simpl.
    destruct (find _ (cart s)) as [found|] eqn:Hfind.
    + destruct (1 <? CartItem.quantity found)%Z eqn:Hq.
      * apply Z.ltb_lt in Hq. now apply (wellFormed_decrement bookId _ found).
      * now apply wellFormed_filter.
    + now apply wellFormed_filter.
  - now apply wellFormed_filter.
Qed.

Lemma wellFormed_run (ops : list CartOp) (s : State) :
  cartWellFormed (cart s) -> cartWellFormed (cart (exec (runCartOps env ops) s)).
Proof.
  revert s; induction ops as [|op rest IH]; intros s Hwf; simpl.
  - exact Hwf.
  - rewrite exec_bind. apply IH.
    change (snd (applyCartOp env op s)) with (exec (applyCartOp env op) s).
    now apply wellFormed_step.
Qed.

Lemma filter_out_absent (bookId : string) (items : list CartItem.t) :
  ~ In bookId (lineIds items) ->
  filter (fun item => negb (CartItem.id item =? bookId)%string) items = items.
Proof.
  unfold lineIds. induction items as [|item rest IH]; simpl; intros Hnotin.
  - reflexivity.
  - destruct (CartItem.id item =? bookId)%string eqn:E; simpl.
    + apply String.eqb_eq in E. exfalso. apply Hnotin. now left.
    + rewrite IH; auto.
Qed.

Lemma filter_out_lineIds (bookId : string) (items : list CartItem.t) :
  ~ In bookId
      (lineIds (filter (fun item => negb (CartItem.id item =? bookId)%string)
                  items)).
Proof.
  unfold lineIds. intros Hin. apply in_map_iff in Hin.
  destruct Hin as [item [Hid Hin]]. apply filter_In in Hin.
  destruct Hin as [_ Hne]. rewrite Hid, String.eqb_refl in Hne. discriminate.
Qed.

Lemma sumQuantities_filter_out (item : CartItem.t) (items : list CartItem.t) :
  NoDup (lineIds items) -> In item items ->
  sumQuantities
    (filter (fun x => negb (CartItem.id x =? CartItem.id item)%string) items)
  = sumQuantities items - CartItem.quantity item.
Proof.
  induction items as [|x rest IH]; simpl; intros Hnd Hin.
  - contradiction.
  - inversion Hnd as [|h l Hnotin Hrest]; subst.
    destruct (CartItem.id x =? CartItem.id item)%string eqn:E; simpl.
    + apply String.eqb_eq in E.
      assert (x = item) as ->.
      { apply (NoDup_lineIds_same (x :: rest)); simpl; auto. }
      rewrite filter_out_absent by exact Hnotin. lia.
    + destruct Hin as [Hin|Hin].
      * subst x. rewrite String.eqb_refl in E. discriminate.
      * rewrite IH by assumption. lia.
Qed.

Lemma find_in_NoDup (item : CartItem.t) (items : list CartItem.t) :
  NoDup (lineIds items) -> In item items ->
  find (fun x => (CartItem.id x =? CartItem.id item)%string) items = Some item.
Proof.
  intros Hnd Hin.
  destruct (find _ items) as [found|] eqn:Hfind.
  - apply find_some in Hfind. destruct Hfind as [Hfin Hfid].
    apply String.eqb_eq in Hfid. f_equal.
    now apply (NoDup_lineIds_same items).
  - exfalso. apply (find_none_lineIds _ _ Hfind).
    unfold lineIds. now apply in_map.
Qed.

(** C1. After any prefix of any sequence of add / increase / decrease / remove
    applied to a state whose cart is empty, [totalCartItems] is the sum of the
    quantities of the lines of the cart and every line has a positive
    quantity; moreover, decreasing a line that stands at quantity 1 in such a
    state removes it: no line with that book id is left and the total drops
    by one. *)
Theorem cart_total_and_positive_quantities
    (ops : list CartOp) (n : nat) (s0 : State) :
  cart s0 = [] ->
  let s := exec (runCartOps env (firstn n ops)) s0 in
  totalCartItems s = sumQuantities (cart s)
  /\ Forall (fun item => 0 < CartItem.quantity item) (cart s)
  /\ forall item,
       In item (cart s) -> CartItem.quantity item = 1 ->
       let s' := exec (handleDecreaseQuantity (CartItem.id item)) s in
       ~ In (CartItem.id item) (lineIds (cart s'))
       /\ totalCartItems s' = totalCartItems s - 1.
Proof.
  intros Hempty s.
  assert (Hwf : cartWellFormed (cart s)).
  { apply wellFormed_run. rewrite Hempty. split; constructor. }
  split; [apply totalCartItems_sum|].
  split; [apply Hwf|].
  intros item Hin Hone s'.
  destruct Hwf as [Hnd Hpos].
  assert (Hcart :
    cart s' = filter (fun x => negb (CartItem.id x =? CartItem.id item)%string)
                (cart s)).
  { unfold s', handleDecreaseQuantity, exec, modify. simpl.
    rewrite (find_in_NoDup item (cart s) Hnd Hin), Hone. reflexivity. }
  split.
  - rewrite Hcart. apply filter_out_lineIds.
  - rewrite !totalCartItems_sum, Hcart.
    rewrite sumQuantities_filter_out by assumption. lia.
Qed.

Lemma exec_addNotification (message : string) (s : State) :
  exec (addNotification env message) s
  = mkState (displayedBooks s) (inventory s) (isLoading s) (selectedBook s)
      (currentView s) (isAdmin s) (salesData s) (cart s)
      (pushNotification (freshNotification env message s) (notifications s))
      (newBooks s) (S (uuid_calls s)) (S (date_calls s)) (random_calls s).
Proof. reflexivity. Qed.

Lemma find_some_lineIds (bookId : string) (items : list CartItem.t) :
  In bookId (lineIds items) ->
  exists found,
    find (fun item => (CartItem.id item =? bookId)%string) items = Some found.
Proof.
  intros Hin.
  destruct (find _ items) as [found|] eqn:Hfind; [now exists found|].
  exfalso. now apply (find_none_lineIds _ _ Hfind).
Qed.

Lemma append_assoc (a b c : string) :
  ((a ++ b) ++ c = a ++ (b ++ c))%string.
Proof.
  induction a as [|ch a IH]; simpl.
  - reflexivity.
  - now rewrite IH.
Qed.

Lemma includes_middle (pre sub post : string) :
  includes (pre ++ sub ++ post)%string sub.
Proof. now exists pre, post. Qed.

(** C7. [add(book)] when a line with the book's id exists: the lines keep
    their books and their order, the quantity of a line goes up by one
    exactly when it carries that id, and neither the notification log nor
    the identifier source is touched. When no line carries the id: one line
    of quantity 1 is appended at the end, and one notification, unread and
    whose message contains the title, is pushed on the log. *)
Theorem add_to_cart_present_or_absent (bookToAdd : Book.t) (s : State) :
  let s' := exec (handleAddToCart env bookToAdd) s in
  (In (Book.id bookToAdd) (lineIds (cart s)) ->
     map CartItem.book (cart s') = map CartItem.book (cart s)
     /\ map CartItem.quantity (cart s')
        = map (fun item =>
                 if (CartItem.id item =? Book.id bookToAdd)%string
                 then CartItem.quantity item + 1
                 else CartItem.quantity item) (cart s)
     /\ notifications s' = notifications s
     /\ uuid_calls s' = uuid_calls s)
  /\ (~ In (Book.id bookToAdd) (lineIds (cart s)) ->
       cart s' = cart s ++ [CartItem.mk bookToAdd 1]
       /\ (exists n,
             notifications s' = n :: firstn 19 (notifications s)
             /\ Notification.message n
                = (dquote ++ Book.title bookToAdd ++ dquote
                   ++ " added to cart.")%string
             /\ includes (Notification.message n) (Book.title bookToAdd)
             /\ Notification.read n = false)
       /\ uuid_calls s' = S (uuid_calls s)).
Proof.
  intros s'. split.
  - intros Hin. destruct (find_some_lineIds _ _ Hin) as [found Hfind].
    assert (Hs' : s' = setCart (map (incrementLine (Book.id bookToAdd))) s).
    { unfold s', handleAddToCart, exec, bind, gets. simpl.
      rewrite Hfind. reflexivity. }
    rewrite Hs'. simpl. repeat split.
    + rewrite map_map. apply map_ext. intros item. unfold incrementLine.
      destruct (CartItem.id item =? Book.id bookToAdd)%string; reflexivity.
    + rewrite map_map. apply map_ext. intros item. unfold incrementLine.
      destruct (CartItem.id item =? Book.id bookToAdd)%string; reflexivity.
  - intros Hnotin.
    assert (Hfind :
      find (fun item => (CartItem.id item =? Book.id bookToAdd)%string) (cart s)
      = None).
    { destruct (find _ (cart s)) as [found|] eqn:Hfind; [|reflexivity].
      exfalso. apply Hnotin. apply find_some in Hfind.
      destruct Hfind as [Hfin Hfid]. apply String.eqb_eq in Hfid.
      rewrite <- Hfid. unfold lineIds. now apply in_map. }
    assert (Hs' :
      s' = setCart (fun prevCart => prevCart ++ [CartItem.mk bookToAdd 1])
             (exec (addNotification env (addedMessage bookToAdd)) s)).
    { unfold s', handleAddToCart, exec, bind, gets. simpl.
      rewrite Hfind. reflexivity. }
    rewrite Hs', exec_addNotification. simpl. repeat split.
    exists (freshNotification env (addedMessage bookToAdd) s).
    repeat split. apply includes_middle.
Qed.

End CartLedger.

(** The four operations on the sample catalog: the cart goes through
    [(A,1)], [(A,2)], [(A,1)], empty and [(B,1)]. *)
Lemma cart_total_and_positive_quantities_witness :
  cart Sample.start = []
  /\ let ops := [add Sample.bookA; increase "A"; decrease "A"; decrease "A";
                 add Sample.bookB; remove Sample.bookB] in
     let s := exec (runCartOps Sample.env (firstn 5 ops)) Sample.start in
     totalCartItems s = sumQuantities (cart s)
     /\ Forall (fun item => 0 < CartItem.quantity item) (cart s)
     /\ forall item,
          In item (cart s) -> CartItem.quantity item = 1 ->
          let s' := exec (handleDecreaseQuantity (CartItem.id item)) s in
          ~ In (CartItem.id item) (lineIds (cart s'))
          /\ totalCartItems s' = totalCartItems s - 1.
Proof.
  split; [reflexivity|].
  intros ops.
  apply (cart_total_and_positive_quantities Sample.env ops 5 Sample.start).
  reflexivity.
Defined.

(** Adding the sample book A twice: the first call takes the absent branch,
    the second the present one. *)
Lemma add_to_cart_present_or_absent_witness :
  let s1 := exec (handleAddToCart Sample.env Sample.bookA) Sample.start in
  let s2 := exec (handleAddToCart Sample.env Sample.bookA) s1 in
  (~ In "A" (lineIds (cart Sample.start))
   /\ cart s1 = [CartItem.mk Sample.bookA 1]
   /\ List.length (notifications s1) = 1%nat)
  /\ (In "A" (lineIds (cart s1))
      /\ map CartItem.quantity (cart s2) = [2]
      /\ notifications s2 = notifications s1).
Proof.
  intros s1 s2.
  assert (Habsent : ~ In (Book.id Sample.bookA) (lineIds (cart Sample.start))).
  { simpl. tauto. }
  assert (Hpresent : In (Book.id Sample.bookA) (lineIds (cart s1))).
  { simpl. now left. }
  split.
  - split; [exact Habsent|].
    destruct (proj2 (add_to_cart_present_or_absent Sample.env Sample.bookA
                       Sample.start) Habsent) as [Hcart [[n [Hlog _]] _]].
    split; [exact Hcart|].
    fold s1 in Hlog. rewrite Hlog. reflexivity.
  - split; [exact Hpresent|].
    destruct (proj1 (add_to_cart_present_or_absent Sample.env Sample.bookA s1)
                Hpresent) as [_ [Hq [Hlog _]]].
    split; [exact Hq | exact Hlog].
Defined.

(** ** Notification center *)

Section NotificationCenter.

Variable env : Env.

Lemma pushNotification_length (n : Notification.t) (prev : list Notification.t) :
  (List.length (pushNotification n prev) <= notificationCap)%nat.
Proof.
  unfold pushNotification, notificationCap. cbn [List.length].
  pose proof (firstn_le_length 19 prev). lia.
Qed.

Lemma exec_pushAll_cons (m : string) (rest : list string) (s : State) :
  exec (pushAll env (m :: rest)) s
  = exec (pushAll env rest) (exec (addNotification env m) s).
Proof. reflexivity. Qed.

Lemma pushAll_length (messages : list string) (s : State) :
  (List.length (notifications s) <= notificationCap)%nat ->
  (List.length (notifications (exec (pushAll env messages) s))
   <= notificationCap)%nat.
Proof.
  revert s. induction messages as [|m rest IH]; intros s Hlen.
  - exact Hlen.
  - rewrite exec_pushAll_cons. apply IH.
    rewrite exec_addNotification. cbn [notifications].
    apply pushNotification_length.
Qed.

Lemma pushAll_uuid_calls (messages : list string) (s : State) :
  uuid_calls (exec (pushAll env messages) s)
  = (uuid_calls s + List.length messages)%nat.
Proof.
  revert s. induction messages as [|m rest IH]; intros s.
  - simpl. unfold exec, ret. simpl. lia.
  - rewrite exec_pushAll_cons, IH, exec_addNotification. simpl. lia.
Qed.

Lemma firstn_incl {A} (k : nat) (l : list A) (x : A) :
  In x (firstn k l) -> In x l.
Proof.
  intros Hin. rewrite <- (firstn_skipn k l). apply in_or_app. now left.
Qed.

Lemma pushNotification_origin (new n : Notification.t)
    (prev : list Notification.t) :
  In n (pushNotification new prev) -> n = new \/ In n prev.
Proof.
  unfold pushNotification. intros [Hnew|Hold].
  - now left.
  - right. eapply firstn_incl; eassumption.
Qed.

(** Every entry of the log after some pushes was in the log before, or was
    created by one of these pushes and carries one of their identifiers. *)
Lemma pushAll_origin (messages : list string) (s : State) (n : Notification.t) :
  In n (notifications (exec (pushAll env messages) s)) ->
  In n (notifications s)
  \/ exists k, (uuid_calls s <= k < uuid_calls s + List.length messages)%nat
               /\ Notification.id n = uuidv4_at env k.
Proof.
  revert s. induction messages as [|m rest IH]; intros s Hin.
  - now left.
  - rewrite exec_pushAll_cons in Hin. apply IH in Hin.
    rewrite exec_addNotification in Hin.
    cbn [notifications uuid_calls] in Hin.
    destruct Hin as [Hin|[k [Hk Hid]]].
    + apply pushNotification_origin in Hin. destruct Hin as [Hnew|Hold].
      * right. exists (uuid_calls s). subst n.
        cbn [List.length]. split; [lia|reflexivity].
      * now left.
    + right. exists k. cbn [List.length]. split; [lia|exact Hid].
Qed.

(** C5. From a log of at most 20 entries and after any sequence of pushes,
    the log has at most 20 entries; one more push puts its notification at
    the front, followed by the first 19 entries of the log before it; and an
    entry that this push evicted is in no later log, whatever is pushed
    afterwards, as long as the identifier source does not yield its id
    again. *)
Theorem notification_log_capped_newest_first
    (before : list string) (m : string) (later : list string) (s : State) :
  (List.length (notifications s) <= 20)%nat ->
  let s1 := exec (pushAll env before) s in
  let s2 := exec (addNotification env m) s1 in
  let s3 := exec (pushAll env later) s2 in
  (List.length (notifications s1) <= 20)%nat
  /\ (List.length (notifications s2) <= 20)%nat
  /\ notifications s2
     = Notification.mk (uuidv4_at env (uuid_calls s1)) m
         (Date_at env (date_calls s1)) false
       :: firstn 19 (notifications s1)
  /\ forall n,
       In n (notifications s1) -> ~ In n (notifications s2) ->
       (forall k, (uuid_calls s2 <= k)%nat ->
                  uuidv4_at env k <> Notification.id n) ->
       ~ In n (notifications s3).
Proof.
  intros Hlen s1 s2 s3.
  assert (H1 : (List.length (notifications s1) <= 20)%nat).
  { now apply pushAll_length. }
  split; [exact H1|].
  split.
  { unfold s2. rewrite exec_addNotification. cbn [notifications].
    apply pushNotification_length. }
  split.
  { unfold s2. rewrite exec_addNotification. reflexivity. }
  intros n Hin1 Hout2 Hfresh Hin3.
  apply pushAll_origin in Hin3. destruct Hin3 as [Hin2|[k [Hk Hid]]].
  - now apply Hout2.
  - apply (Hfresh k); [lia|now symmetry].
Qed.

End NotificationCenter.

(** Pushing three messages on the empty log of the sample state. *)
Lemma notification_log_capped_newest_first_witness :
  (List.length (notifications Sample.start) <= 20)%nat
  /\ let s2 := exec (pushAll Sample.env ["one"; "two"]) Sample.start in
     let s3 := exec (pushAll Sample.env ["three"]) s2 in
     (List.length (notifications s2) <= 20)%nat
     /\ map Notification.message (notifications s2) = ["two"; "one"]
     /\ (List.length (notifications s3) <= 20)%nat.
Proof.
  split; [simpl; lia|].
  intros s2 s3.
  pose proof (notification_log_capped_newest_first Sample.env
                ["one"] "two" ["three"] Sample.start) as H.
  simpl in H. destruct H as [_ [H2 [Hfront _]]]; [lia|].
  split; [exact H2|].
  split; [reflexivity|].
  apply pushAll_length. exact H2.
Defined.

(** Twenty-one pushes on the empty log: twenty entries are left, the last
    pushed one in front, and the first pushed one is gone. *)
Example notification_log_eviction_run :
  let s := exec (pushAll Sample.env (repeat "m" 21)) Sample.start in
  List.length (notifications s) = 20%nat
  /\ hd_error (map Notification.id (notifications s)) = Some "uuid-20"
  /\ ~ In "uuid-0" (map Notification.id (notifications s)).
Proof.
  vm_compute. split; [reflexivity|]. split; [reflexivity|].
  intros Hin.
  repeat (destruct Hin as [Hin|Hin]; [discriminate Hin|]). exact Hin.
Qed.

(** ** Sales aggregator *)

Section SalesAggregator.

Variable env : Env.

Lemma run_addNotification (message : string) (s : State) :
  addNotification env message s
  = (tt,
     mkState (displayedBooks s) (inventory s) (isLoading s) (selectedBook s)
       (currentView s) (isAdmin s) (salesData s) (cart s)
       (pushNotification (freshNotification env message s) (notifications s))
       (newBooks s) (S (uuid_calls s)) (S (date_calls s)) (random_calls s)).
Proof. reflexivity. Qed.

Lemma run_pushSales (count : nat) (bookId : string) (newSales : list Sale.t)
    (s : State) :
  pushSales env count bookId newSales s
  = (newSales ++ salesFrom env (date_calls s) count bookId,
     mkState (displayedBooks s) (inventory s) (isLoading s) (selectedBook s)
       (currentView s) (isAdmin s) (salesData s) (cart s) (notifications s)
       (newBooks s) (uuid_calls s) (date_calls s + count) (random_calls s)).
Proof.
  revert newSales s. induction count as [|k IH]; intros newSales s.
  - simpl. unfold ret. rewrite app_nil_r, Nat.add_0_r.
    destruct s; reflexivity.
  - cbn [pushSales salesFrom]. unfold bind at 1. cbn [new_Date].
    rewrite IH. state_fields. rewrite <- app_assoc. cbn [app].
    f_equal. f_equal. lia.
Qed.

Lemma run_recordItems (items : list CartItem.t) (newSales : list Sale.t)
    (s : State) :
  recordItems env items newSales s
  = (newSales ++ recordedSales env (date_calls s) items,
     mkState (displayedBooks s) (inventory s) (isLoading s) (selectedBook s)
       (currentView s) (isAdmin s) (salesData s) (cart s)
       (pushEach (recordedNotes env (uuid_calls s) (date_calls s) items)
          (notifications s))
       (newBooks s) (uuid_calls s + List.length items)
       (date_calls s + clockReads items) (random_calls s)).
Proof.
  revert newSales s. induction items as [|item rest IH]; intros newSales s.
  - simpl. unfold ret. rewrite app_nil_r, !Nat.add_0_r.
    destruct s; reflexivity.
  - cbn [recordItems recordedSales recordedNotes clockReads List.length].
    unfold bind at 1. rewrite run_pushSales.
    unfold bind at 1. rewrite run_addNotification.
    rewrite IH. state_fields. rewrite <- app_assoc.
    f_equal. f_equal; unfold units; lia.
Qed.

Lemma bookIds_salesFrom (d count : nat) (bookId : string) :
  map Sale.bookId (salesFrom env d count bookId) = repeat bookId count.
Proof.
  revert d. induction count as [|k IH]; intros d; simpl.
  - reflexivity.
  - now rewrite IH.
Qed.

Lemma bookIds_recordedSales (d : nat) (items : list CartItem.t) :
  map Sale.bookId (recordedSales env d items)
  = flat_map (fun item => repeat (CartItem.id item) (units item)) items.
Proof.
  revert d. induction items as [|item rest IH]; intros d; simpl.
  - reflexivity.
  - now rewrite map_app, bookIds_salesFrom, IH.
Qed.

Lemma count_absent_line (bookId : string) (items : list CartItem.t) :
  ~ In bookId (lineIds items) ->
  count_occ string_dec
    (flat_map (fun item => repeat (CartItem.id item) (units item)) items)
    bookId = 0%nat.
Proof.
  unfold lineIds. induction items as [|x rest IH]; simpl; intros Hnotin.
  - reflexivity.
  - rewrite count_occ_app, IH by tauto.
    rewrite count_occ_repeat_neq; [reflexivity|].
    intros Heq. apply Hnotin. left. now symmetry.
Qed.

Lemma count_line_units (item : CartItem.t) (items : list CartItem.t) :
  NoDup (lineIds items) -> In item items ->
  count_occ string_dec
    (flat_map (fun item => repeat (CartItem.id item) (units item)) items)
    (CartItem.id item) = units item.
Proof.
  induction items as [|x rest IH]; intros Hnd Hin.
  - contradiction.
  - cbn [flat_map]. rewrite count_occ_app.
    pose proof Hnd as Hnd'.
    unfold lineIds in Hnd'. cbn [map] in Hnd'.
    inversion Hnd' as [|h l Hnotin Hrest]; subst.
    destruct (string_dec (CartItem.id x) (CartItem.id item)) as [Heq|Hne].
    + assert (x = item) as ->.
      { apply (NoDup_lineIds_same (x :: rest)); simpl; auto. }
      rewrite count_occ_repeat_eq by reflexivity.
      rewrite count_absent_line by exact Hnotin. lia.
    + destruct Hin as [Hin|Hin]; [subst x; contradiction|].
      rewrite count_occ_repeat_neq by congruence.
      rewrite IH by assumption. reflexivity.
Qed.

Lemma length_salesFrom (d count : nat) (bookId : string) :
  List.length (salesFrom env d count bookId) = count.
Proof.
  revert d. induction count as [|k IH]; intros d; simpl; auto.
Qed.

Lemma length_recordedSales (d : nat) (items : list CartItem.t) :
  Forall (fun item => 0 < CartItem.quantity item) items ->
  Z.of_nat (List.length (recordedSales env d items)) = sumQuantities items.
Proof.
  revert d. induction items as [|item rest IH]; intros d Hpos; simpl.
  - reflexivity.
  - inversion Hpos as [|x l Hq Hrest]; subst.
    rewrite length_app, length_salesFrom, Nat2Z.inj_add, IH by assumption.
    unfold units. lia.
Qed.

Lemma stampedWithin_weaken (lo hi lo' hi' : nat) (sales : list Sale.t) :
  (lo' <= lo)%nat -> (hi <= hi')%nat ->
  Forall (stampedWithin env lo hi) sales -> Forall (stampedWithin env lo' hi') sales.
Proof.
  intros Hlo Hhi. apply Forall_impl. intros sale [k [Hk Hts]].
  exists k. split; [lia|exact Hts].
Qed.

Lemma stamps_salesFrom (d count : nat) (bookId : string) :
  Forall (stampedWithin env d (d + count)) (salesFrom env d count bookId).
Proof.
  revert d. induction count as [|k IH]; intros d; simpl.
  - constructor.
  - constructor.
    + exists d. simpl. split; [lia|reflexivity].
    + apply (stampedWithin_weaken (S d) (S d + k)); [lia|lia|apply IH].
Qed.

Lemma stamps_recordedSales (d : nat) (items : list CartItem.t) :
  Forall (stampedWithin env d (d + clockReads items)) (recordedSales env d items).
Proof.
  revert d. induction items as [|item rest IH]; intros d; simpl.
  - constructor.
  - apply Forall_app. split.
    + apply (stampedWithin_weaken d (d + units item)); [lia|lia|].
      apply stamps_salesFrom.
    + apply (stampedWithin_weaken (S (d + units item))
               (S (d + units item) + clockReads rest)); [lia|lia|apply IH].
Qed.

Lemma messages_recordedNotes (u d : nat) (items : list CartItem.t) :
  map Notification.message (recordedNotes env u d items)
  = map saleMessage items.
Proof.
  revert u d. induction items as [|item rest IH]; intros u d; simpl.
  - reflexivity.
  - now rewrite IH.
Qed.

Lemma saleMessage_includes (item : CartItem.t) :
  includes (saleMessage item) (CartItem.title item)
  /\ includes (saleMessage item) (string_of_Z (CartItem.quantity item)).
Proof.
  unfold saleMessage. split.
  - exists ("New Sale: " ++ dquote)%string,
      (dquote ++ " (x" ++ string_of_Z (CartItem.quantity item) ++ ")")%string.
    reflexivity.
  - exists ("New Sale: " ++ dquote ++ CartItem.title item ++ dquote ++ " (x")%string,
      ")"%string.
    cbn [append dquote]. rewrite append_assoc. reflexivity.
Qed.

Lemma exec_handleConfirmCartPurchase (s : State) :
  exec (handleConfirmCartPurchase env) s
  = mkState (displayedBooks s) (inventory s) (isLoading s) (selectedBook s)
      store (isAdmin s)
      (salesData s ++ recordedSales env (date_calls s) (cart s)) []
      (pushEach (recordedNotes env (uuid_calls s) (date_calls s) (cart s))
         (notifications s))
      (newBooks s) (uuid_calls s + List.length (cart s))
      (date_calls s + clockReads (cart s)) (random_calls s).
Proof.
  unfold handleConfirmCartPurchase, exec.
  unfold bind at 1. unfold gets at 1.
  unfold bind at 1. rewrite run_recordItems.
  reflexivity.
Qed.

Lemma parse_string_of_Z (z : Z) :
  NilZero.int_of_string (string_of_Z z) = Some (Z.to_int z).
Proof.
  unfold string_of_Z. apply NilZero.isi; destruct z as [|p|p]; cbn;
    intros H; try discriminate H; injection H as H;
    now apply DecimalPos.Unsigned.to_uint_nonnil in H.
Qed.

Lemma firstn_past_cut {A} (k j : nat) (l1 l2 : list A) :
  (k <= List.length l1 + j)%nat ->
  firstn k (l1 ++ firstn j l2) = firstn k (l1 ++ l2).
Proof.
  intros Hk. rewrite !firstn_app, firstn_firstn.
  replace (Nat.min (k - List.length l1) j) with (k - List.length l1)%nat by lia.
  reflexivity.
Qed.

Lemma pushEach_cons (n : Notification.t) (rest log : list Notification.t) :
  pushEach (n :: rest) log = pushEach rest (pushNotification n log).
Proof. reflexivity. Qed.

(** Pushing at least one notification: the log is cut to its first 20
    entries. *)
Lemma pushEach_explicit (notes log : list Notification.t) :
  notes <> [] -> pushEach notes log = firstn 20 (rev notes ++ log).
Proof.
  revert log. induction notes as [|n rest IH]; intros log Hne.
  - contradiction.
  - rewrite pushEach_cons. destruct rest as [|n' rest'].
    + reflexivity.
    + rewrite IH by discriminate. unfold pushNotification.
      change (rev (n :: n' :: rest')) with (rev (n' :: rest') ++ [n]).
      rewrite <- (app_assoc (rev (n' :: rest')) [n] log).
      change ([n] ++ log) with (n :: log).
      change (n :: firstn 19 log) with ([n] ++ firstn 19 log).
      rewrite app_assoc, firstn_past_cut.
      * rewrite <- app_assoc. reflexivity.
      * rewrite length_app. cbn [List.length]. lia.
Qed.

Lemma recordedNotes_nil (u d : nat) (items : list CartItem.t) :
  recordedNotes env u d items = [] -> items = [].
Proof. destruct items; [reflexivity|discriminate]. Qed.

(** The notifications of a checkout, line by line. *)
Lemma notes_of_lines (items : list CartItem.t) (u d ulo uhi dlo dhi : nat) :
  (ulo <= u)%nat -> (u + List.length items <= uhi)%nat ->
  (dlo <= d)%nat -> (d + clockReads items <= dhi)%nat ->
  Forall2 (saleNoteOf env ulo uhi dlo dhi) items (recordedNotes env u d items).
Proof.
  revert u d. induction items as [|item rest IH]; intros u d Hu Hu' Hd Hd'.
  - constructor.
  - cbn [recordedNotes]. cbn [List.length clockReads] in Hu', Hd'.
    constructor.
    + unfold saleNoteOf. cbn [Notification.message Notification.read
        Notification.id Notification.timestamp].
      split.
      { exists (string_of_Z (CartItem.quantity item)).
        split; [reflexivity|apply parse_string_of_Z]. }
      split; [reflexivity|].
      split.
      * exists u. split; [lia|reflexivity].
      * exists (d + units item)%nat. split; [lia|reflexivity].
    + apply IH; lia.
Qed.

(** C4. Confirming the purchase of a well-formed cart (one line per book,
    positive quantities) appends to the sales log a list of new records in
    which each line of quantity N has exactly N records carrying its book
    id, [totalCartItems] records in all, each stamped by a clock reading
    taken during the call. It creates one notification per line, that is per
    distinct book, in the order of the lines: unread, with an identifier
    drawn and a clock reading taken during the call, and with the message
    [New Sale: "title" (xN)] where N is the quantity in decimal digits.
    When the cart has a line, the notification log afterwards is the first
    20 entries of these notifications, the last created first, followed by
    the old log; with an empty cart the log is as it was. The cart is then
    empty and the view is the store. *)
Theorem confirm_purchase_one_record_per_unit (s : State) :
  cartWellFormed (cart s) ->
  let s' := exec (handleConfirmCartPurchase env) s in
  exists newSales notes,
    salesData s' = salesData s ++ newSales
    /\ map Sale.bookId newSales
       = flat_map (fun item =>
                     repeat (CartItem.id item)
                       (Z.to_nat (CartItem.quantity item))) (cart s)
    /\ (forall item,
          In item (cart s) ->
          Z.of_nat (count_occ string_dec (map Sale.bookId newSales)
                      (CartItem.id item))
          = CartItem.quantity item)
    /\ Z.of_nat (List.length newSales) = totalCartItems s
    /\ Forall (fun sale =>
                 exists k, (date_calls s <= k < date_calls s')%nat
                           /\ Sale.timestamp sale = Date_at env k) newSales
    /\ Forall2 (fun item n =>
                  (exists digits,
                     Notification.message n
                     = ("New Sale: " ++ dquote ++ CartItem.title item
                        ++ dquote ++ " (x" ++ digits ++ ")")%string
                     /\ NilZero.int_of_string digits
                        = Some (Z.to_int (CartItem.quantity item)))
                  /\ Notification.read n = false
                  /\ (exists k, (uuid_calls s <= k < uuid_calls s')%nat
                                /\ Notification.id n = uuidv4_at env k)
                  /\ (exists d, (date_calls s <= d < date_calls s')%nat
                                /\ Notification.timestamp n = Date_at env d))
         (cart s) notes
    /\ (cart s <> [] ->
        notifications s' = firstn 20 (rev notes ++ notifications s))
    /\ (cart s = [] -> notifications s' = notifications s)
    /\ Forall2 (fun item n =>
                  includes (Notification.message n) (CartItem.title item))
         (cart s) notes
    /\ uuid_calls s' = (uuid_calls s + List.length (cart s))%nat
    /\ cart s' = []
    /\ currentView s' = store.
Proof.
  intros [Hnd Hpos] s'.
  exists (recordedSales env (date_calls s) (cart s)),
         (recordedNotes env (uuid_calls s) (date_calls s) (cart s)).
  assert (Hnotes :
    Forall2 (saleNoteOf env (uuid_calls s)
               (uuid_calls s + List.length (cart s)) (date_calls s)
               (date_calls s + clockReads (cart s)))
      (cart s) (recordedNotes env (uuid_calls s) (date_calls s) (cart s))).
  { apply notes_of_lines; lia. }
  unfold s'. rewrite exec_handleConfirmCartPurchase. state_fields.
  split; [reflexivity|].
  split; [apply bookIds_recordedSales|].
  split.
  { intros item Hin. rewrite bookIds_recordedSales.
    rewrite count_line_units by assumption.
    rewrite Forall_forall in Hpos. specialize (Hpos item Hin).
    unfold units. lia. }
  split.
  { rewrite length_recordedSales by assumption.
    symmetry. apply totalCartItems_sum. }
  split; [apply stamps_recordedSales|].
  split; [exact Hnotes|].
  split.
  { intros Hne. apply pushEach_explicit. intros Hnil.
    apply Hne. eapply recordedNotes_nil. exact Hnil. }
  split.
  { intros ->. reflexivity. }
  split.
  { eapply Forall2_impl; [|exact Hnotes].
    intros item n [[digits [Hmsg _]] _]. rewrite Hmsg.
    apply (includes_middle ("New Sale: " ++ dquote)). }
  repeat split.
Qed.

(** C9. Confirming a purchase on an empty cart leaves the sales log and the
    notification log as they are, draws no identifier and reads no clock;
    the cart stays empty and the view is the store. *)
Theorem confirm_purchase_empty_cart (s : State) :
  cart s = [] ->
  let s' := exec (handleConfirmCartPurchase env) s in
  salesData s' = salesData s
  /\ notifications s' = notifications s
  /\ uuid_calls s' = uuid_calls s
  /\ date_calls s' = date_calls s
  /\ cart s' = []
  /\ currentView s' = store.
Proof.
  intros Hempty s'. unfold s'.
  rewrite exec_handleConfirmCartPurchase, Hempty. state_fields.
  cbn [recordedSales recordedNotes pushEach fold_left clockReads List.length].
  rewrite app_nil_r, !Nat.add_0_r. repeat split.
Qed.

End SalesAggregator.

(** The cart of the sample state [Sample.withCart]: two units of A, one of
    B. *)
Lemma confirm_purchase_one_record_per_unit_witness :
  cartWellFormed (cart Sample.withCart)
  /\ let s' := exec (handleConfirmCartPurchase Sample.env) Sample.withCart in
     exists newSales notes,
       salesData s' = salesData Sample.withCart ++ newSales
       /\ map Sale.bookId newSales = ["A"; "A"; "B"]
       /\ notifications s'
          = firstn 20 (rev notes ++ notifications Sample.withCart)
       /\ List.length notes = 2%nat.
Proof.
  assert (Hwf : cartWellFormed (cart Sample.withCart)).
  { split.
    - simpl. repeat constructor; simpl; intuition discriminate.
    - repeat constructor. }
  split; [exact Hwf|].
  intros s'.
  destruct (confirm_purchase_one_record_per_unit Sample.env Sample.withCart Hwf)
    as [newSales [notes [Hlog [Hids [_ [_ [_ [Hnotes [Hshown _]]]]]]]]].
  exists newSales, notes.
  split; [exact Hlog|].
  split; [exact Hids|].
  split; [apply Hshown; discriminate|].
  symmetry. exact (Forall2_length Hnotes).
Defined.

(** The sample checkout, evaluated: three sale records, two for A and one for
    B, and two notifications, the later one first. *)
Example confirm_purchase_sample_run :
  let s' := exec (handleConfirmCartPurchase Sample.env) Sample.withCart in
  map Sale.bookId (salesData s') = ["A"; "A"; "B"]
  /\ map Notification.message (notifications s')
     = [("New Sale: " ++ dquote ++ "Botany" ++ dquote ++ " (x1)")%string;
        ("New Sale: " ++ dquote ++ "Algorithms" ++ dquote ++ " (x2)")%string]
  /\ cart s' = [].
Proof. repeat split. Qed.

(** The synthesized fields, evaluated. One half gives the price 28000 and the
    rating 4.3. At 866076851417403 / 2^50 the binary64 product is 20 and the
    price 35000; at 1426139882000657 / 2^51 the binary64 sum rounds to 4.5. *)
Example synthesized_fields_sample_runs :
  priceOf (mkUnit01 0.5%float eq_refl)
  = (currencyPrefix ++ "28000")%string
  /\ ratingOf (mkUnit01 0.5%float eq_refl) = tenths 43
  /\ priceOf SampleMore.lowRoll = (currencyPrefix ++ "35000")%string
  /\ ratingOf SampleMore.highRoll = 4.5%float
  /\ bestsellerOf (mkUnit01 0.25%float eq_refl) = false
  /\ bestsellerOf (mkUnit01 0.125%float eq_refl) = true.
Proof. repeat split. Qed.

(** The sample state has an empty cart. *)
Lemma confirm_purchase_empty_cart_witness :
  cart Sample.start = []
  /\ let s' := exec (handleConfirmCartPurchase Sample.env) Sample.start in
     salesData s' = [] /\ notifications s' = [] /\ cart s' = []
     /\ currentView s' = store.
Proof.
  split; [reflexivity|].
  intros s'.
  destruct (confirm_purchase_empty_cart Sample.env Sample.start eq_refl)
    as [Hsales [Hlog [_ [_ [Hcart Hview]]]]].
  repeat split; assumption.
Defined.

(** ** Recommendation search *)

Section Search.

Variable env : Env.
Variable prebuiltBooks : list Book.t.

Lemma exec_handleSearch_begin (sid : SearchId) (s : State) :
  exec (handleSearch_begin sid) s
  = mkState [] (inventory s) true (selectedBook s) (currentView s) (isAdmin s)
      (salesData s) (cart s) (notifications s)
      (fun k => if Nat.eqb k sid then [] else newBooks s k)
      (uuid_calls s) (date_calls s) (random_calls s).
Proof. reflexivity. Qed.

Lemma exec_onItem (sid : SearchId) (bookData : BookData.t) (s : State) :
  exec (onItem env sid bookData) s
  = mkState
      (newBooks s sid ++ [bookAt env (uuid_calls s) (random_calls s) bookData])
      (inventory s) (isLoading s) (selectedBook s) (currentView s) (isAdmin s)
      (salesData s) (cart s) (notifications s)
      (fun k =>
         if Nat.eqb k sid
         then newBooks s sid
              ++ [bookAt env (uuid_calls s) (random_calls s) bookData]
         else newBooks s k)
      (S (uuid_calls s)) (date_calls s) (S (S (S (random_calls s)))).
Proof.
  unfold onItem, exec, bind, gets, modify, uuidv4, Math_random.
  cbn. rewrite Nat.eqb_refl. reflexivity.
Qed.

Lemma exec_handleSearch_resolve (sid : SearchId) (s : State) :
  exec (handleSearch_resolve sid) s
  = mkState (displayedBooks s)
      (inventory s ++ filter (unseenIn (inventory s)) (newBooks s sid))
      false (selectedBook s) (currentView s) (isAdmin s) (salesData s)
      (cart s) (notifications s) (newBooks s) (uuid_calls s) (date_calls s)
      (random_calls s).
Proof. reflexivity. Qed.

Lemma exec_handleSearch_reject (sid : SearchId) (s : State) :
  exec (handleSearch_reject prebuiltBooks sid) s
  = mkState prebuiltBooks (inventory s) false (selectedBook s) (currentView s)
      (isAdmin s) (salesData s) (cart s) (notifications s) (newBooks s)
      (uuid_calls s) (date_calls s) (random_calls s).
Proof. reflexivity. Qed.

Lemma exec_runSearchEvents_cons (e : SearchEvent) (es : list SearchEvent)
    (s : State) :
  exec (runSearchEvents env prebuiltBooks (e :: es)) s
  = exec (runSearchEvents env prebuiltBooks es)
      (exec (searchStep env prebuiltBooks e) s).
Proof. cbn [runSearchEvents]. now rewrite exec_bind. Qed.

Lemma exec_runSearchEvents_app (es1 es2 : list SearchEvent) (s : State) :
  exec (runSearchEvents env prebuiltBooks (es1 ++ es2)) s
  = exec (runSearchEvents env prebuiltBooks es2)
      (exec (runSearchEvents env prebuiltBooks es1) s).
Proof.
  revert s. induction es1 as [|e rest IH]; intros s.
  - reflexivity.
  - cbn [app]. now rewrite !exec_runSearchEvents_cons, IH.
Qed.

Lemma unseenIn_spec (prev : list Book.t) (nb : Book.t) :
  unseenIn prev nb = true <-> ~ In (Book.id nb) (map Book.id prev).
Proof.
  unfold unseenIn. rewrite negb_true_iff. split.
  - intros Hex Hin. apply in_map_iff in Hin. destruct Hin as [ib [Hid Hib]].
    assert (existsb (fun ib => (Book.id ib =? Book.id nb)%string) prev = true).
    { apply existsb_exists. exists ib. split; [exact Hib|].
      now apply String.eqb_eq. }
    congruence.
  - intros Hnotin.
    destruct (existsb _ prev) eqn:Hex; [|reflexivity].
    exfalso. apply Hnotin. apply existsb_exists in Hex.
    destruct Hex as [ib [Hib Hid]]. apply String.eqb_eq in Hid.
    apply in_map_iff. now exists ib.
Qed.

(** C10. The start of a search, before the stream is consumed: the displayed
    list is empty and the loading flag is set, whatever was displayed
    before; the first item that arrives afterwards is then displayed
    alone. *)
Theorem search_start_empties_display (sid : SearchId) (s : State) :
  let s1 := exec (handleSearch_begin sid) s in
  displayedBooks s1 = []
  /\ isLoading s1 = true
  /\ newBooks s1 sid = []
  /\ inventory s1 = inventory s
  /\ forall bookData,
       displayedBooks (exec (onItem env sid bookData) s1)
       = [bookAt env (uuid_calls s) (random_calls s) bookData].
Proof.
  intros s1. unfold s1. rewrite exec_handleSearch_begin. state_fields.
  rewrite Nat.eqb_refl. repeat split.
  intros bookData. rewrite exec_onItem. state_fields.
  rewrite Nat.eqb_refl. reflexivity.
Qed.

(** C8. When the stream of search [sid] ends gracefully, the inventory
    becomes the old inventory followed by some added books. The added books
    are the accumulated books of the search, in their order of arrival, less
    those whose id is an id of the old inventory: a book with a new id is
    appended, a book with a known id is skipped. The old entries keep their
    positions and values. *)
Theorem inventory_merge_appends_unseen (sid : SearchId) (s : State) :
  let s' := exec (handleSearch_resolve sid) s in
  exists added keep,
    inventory s' = inventory s ++ added
    /\ firstn (List.length (inventory s)) (inventory s') = inventory s
    /\ added = filter keep (newBooks s sid)
    /\ (forall nb,
          keep nb = true <-> ~ In (Book.id nb) (map Book.id (inventory s)))
    /\ (forall nb,
          In nb (newBooks s sid) ->
          ~ In (Book.id nb) (map Book.id (inventory s)) -> In nb (inventory s'))
    /\ (forall nb,
          In nb (newBooks s sid) ->
          In (Book.id nb) (map Book.id (inventory s)) -> ~ In nb added).
Proof.
  intros s'. unfold s'. rewrite exec_handleSearch_resolve. state_fields.
  exists (filter (unseenIn (inventory s)) (newBooks s sid)),
         (unseenIn (inventory s)).
  split; [reflexivity|].
  split.
  { rewrite firstn_app, firstn_all, Nat.sub_diag. cbn [firstn].
    apply app_nil_r. }
  split; [reflexivity|].
  split; [intros nb; apply unseenIn_spec|].
  split.
  - intros nb Hin Hnew. apply in_or_app. right.
    apply filter_In. split; [exact Hin|]. now apply unseenIn_spec.
  - intros nb Hin Hknown Hadded. apply filter_In in Hadded.
    destruct Hadded as [_ Hkeep]. apply unseenIn_spec in Hkeep. contradiction.
Qed.

Lemma lastWriter_none (arrivals : list Arrival) :
  lastWriter arrivals = None -> arrivals = [].
Proof.
  destruct arrivals as [|a rest]; [reflexivity|]. simpl.
  destruct (lastWriter rest); discriminate.
Qed.

Lemma lastWriter_snoc (arrivals : list Arrival) (a : Arrival) :
  lastWriter (arrivals ++ [a]) = Some (fst a).
Proof.
  induction arrivals as [|x rest IH]; simpl.
  - reflexivity.
  - now rewrite IH.
Qed.

(** What a run of item callbacks, of any searches, does to the state. *)
Lemma run_arrivals (arrivals : list Arrival) (s : State) :
  let s' := exec (runSearchEvents env prebuiltBooks (map arrive arrivals)) s in
  (forall sid,
     newBooks s' sid
     = newBooks s sid
       ++ ingested env (uuid_calls s) (random_calls s) sid arrivals)
  /\ displayedBooks s'
     = match lastWriter arrivals with
       | Some who => newBooks s' who
       | None => displayedBooks s
       end
  /\ inventory s' = inventory s
  /\ isLoading s' = isLoading s.
Proof.
  revert s. induction arrivals as [|a rest IH]; intros s.
  - cbn. repeat split. intros sid. now rewrite app_nil_r.
  - cbn zeta. cbn [map]. rewrite exec_runSearchEvents_cons.
    cbn [searchStep arrive].
    pose proof (exec_onItem (fst a) (snd a) s) as Hs1.
    set (s1 := exec (onItem env (fst a) (snd a)) s) in *.
    specialize (IH s1). cbn zeta in IH.
    destruct IH as [Hnew [Hshown [Hinv Hload]]].
    assert (Hnb : forall k,
              newBooks s1 k
              = if Nat.eqb k (fst a)
                then newBooks s (fst a)
                     ++ [bookAt env (uuid_calls s) (random_calls s) (snd a)]
                else newBooks s k).
    { intros k. rewrite Hs1. reflexivity. }
    assert (Hu : uuid_calls s1 = S (uuid_calls s)).
    { rewrite Hs1. reflexivity. }
    assert (Hr : random_calls s1 = S (S (S (random_calls s)))).
    { rewrite Hs1. reflexivity. }
    split.
    { intros sid. rewrite Hnew, Hnb, Hu, Hr. cbn [ingested].
      destruct (Nat.eqb sid (fst a)) eqn:E.
      - apply Nat.eqb_eq in E. subst sid. now rewrite <- app_assoc.
      - reflexivity. }
    split.
    { cbn [lastWriter]. rewrite Hshown.
      destruct (lastWriter rest) as [who|] eqn:Hlast; [reflexivity|].
      apply lastWriter_none in Hlast. subst rest.
      change (exec (runSearchEvents env prebuiltBooks (map arrive [])) s1)
        with s1.
      rewrite Hnb, Nat.eqb_refl, Hs1. reflexivity. }
    split.
    { rewrite Hinv, Hs1. reflexivity. }
    { rewrite Hload, Hs1. reflexivity. }
Qed.

Lemma data_of_ingested (u r : nat) (sid : SearchId) (arrivals : list Arrival) :
  map dataOf (ingested env u r sid arrivals)
  = map snd (filter (fun a => Nat.eqb sid (fst a)) arrivals).
Proof.
  revert u r. induction arrivals as [|a rest IH]; intros u r.
  - reflexivity.
  - cbn [ingested filter]. cbn beta. rewrite map_app, IH.
    destruct (Nat.eqb sid (fst a)); cbn [map app].
    + f_equal. destruct a as [who [t au su c d n]]; reflexivity.
    + reflexivity.
Qed.

Lemma ids_of_ingested (u r : nat) (sid : SearchId) (arrivals : list Arrival)
    (b : Book.t) :
  In b (ingested env u r sid arrivals) ->
  exists k, (u <= k)%nat /\ Book.id b = uuidv4_at env k.
Proof.
  revert u r. induction arrivals as [|a rest IH]; intros u r; simpl.
  - contradiction.
  - intros Hin. apply in_app_or in Hin. destruct Hin as [Hin|Hin].
    + destruct (Nat.eqb sid (fst a)); [|contradiction].
      destruct Hin as [Hb|[]]. subst b. exists u. split; [lia|reflexivity].
    + apply IH in Hin. destruct Hin as [k [Hk Hid]].
      exists k. split; [lia|exact Hid].
Qed.

Lemma items_as_arrivals (sid : SearchId) (items : list BookData.t) :
  map (itemArrived sid) items
  = map arrive (map (fun bookData => (sid, bookData)) items).
Proof. rewrite map_map. reflexivity. Qed.

Lemma own_arrivals (sid : SearchId) (items : list BookData.t) :
  map snd (filter (fun a => Nat.eqb sid (fst a))
             (map (fun bookData => (sid, bookData)) items))
  = items.
Proof.
  induction items as [|bd rest IH]; cbn.
  - reflexivity.
  - rewrite Nat.eqb_refl. cbn. now f_equal.
Qed.

Lemma lastWrite_not_resolved (ov : list Overlap) :
  lastWrite ov <> Some firstResolved.
Proof.
  induction ov as [|o rest IH]; cbn [lastWrite].
  - discriminate.
  - destruct (lastWrite rest) as [w|]; [exact IH|].
    destruct o; discriminate.
Qed.

Lemma lastWrite_snoc (ov : list Overlap) (o : Overlap) :
  lastWrite (ov ++ [o])
  = match o with
    | firstResolved => lastWrite ov
    | _ => Some o
    end.
Proof.
  induction ov as [|x rest IH]; cbn [app lastWrite].
  - destruct o; reflexivity.
  - rewrite IH. destruct o; reflexivity.
Qed.

(** Overlapping events none of which writes the display leave the arrays and
    the display alone. *)
Lemma run_no_write (sid1 sid2 : SearchId) (ov : list Overlap) (s : State) :
  lastWrite ov = None ->
  let s' := exec (runSearchEvents env prebuiltBooks
                    (map (overlapEvent sid1 sid2) ov)) s in
  newBooks s' = newBooks s /\ displayedBooks s' = displayedBooks s.
Proof.
  revert s. induction ov as [|o rest IH]; intros s Hnone.
  - split; reflexivity.
  - cbn [lastWrite] in Hnone. cbn zeta. cbn [map].
    rewrite exec_runSearchEvents_cons.
    destruct (lastWrite rest) as [w|] eqn:Hrest; [discriminate|].
    destruct o; try discriminate.
    cbn [overlapEvent searchStep].
    destruct (IH (exec (handleSearch_resolve sid1) s) eq_refl) as [Hn Hd].
    rewrite Hn, Hd. split; reflexivity.
Qed.

(** What the overlapping events do, from any state. *)
Lemma run_overlap (sid1 sid2 : SearchId) (ov : list Overlap) (s : State) :
  sid1 <> sid2 ->
  let s' := exec (runSearchEvents env prebuiltBooks
                    (map (overlapEvent sid1 sid2) ov)) s in
  map dataOf (newBooks s' sid1) = map dataOf (newBooks s sid1) ++ firstItems ov
  /\ map dataOf (newBooks s' sid2)
     = map dataOf (newBooks s sid2) ++ secondItems ov
  /\ displayedBooks s'
     = match lastWrite ov with
       | None => displayedBooks s
       | Some (firstItem _) => newBooks s' sid1
       | Some (secondItem _) => newBooks s' sid2
       | Some firstRejected => prebuiltBooks
       | Some firstResolved => displayedBooks s
       end.
Proof.
  intros Hne. revert s. induction ov as [|o rest IH]; intros s.
  - cbn. rewrite !app_nil_r. repeat split.
  - cbn zeta. cbn [map]. rewrite exec_runSearchEvents_cons.
    set (s1 := exec (searchStep env prebuiltBooks (overlapEvent sid1 sid2 o)) s).
    specialize (IH s1). cbn zeta in IH. destruct IH as [H1 [H2 Hshown]].
    assert (E12 : Nat.eqb sid1 sid2 = false) by (now apply Nat.eqb_neq).
    assert (E21 : Nat.eqb sid2 sid1 = false)
      by (apply Nat.eqb_neq; congruence).
    assert (Hs1 :
      map dataOf (newBooks s1 sid1)
      = map dataOf (newBooks s sid1) ++ firstItems [o]
      /\ map dataOf (newBooks s1 sid2)
         = map dataOf (newBooks s sid2) ++ secondItems [o]
      /\ displayedBooks s1
         = match o with
           | firstItem _ => newBooks s1 sid1
           | secondItem _ => newBooks s1 sid2
           | firstRejected => prebuiltBooks
           | firstResolved => displayedBooks s
           end).
    { unfold s1. destruct o as [bd|bd| |]; cbn [overlapEvent searchStep].
      - rewrite exec_onItem. state_fields.
        rewrite Nat.eqb_refl, E21, map_app. cbn [map firstItems secondItems
          flat_map app]. rewrite app_nil_r.
        repeat split. now destruct bd.
      - rewrite exec_onItem. state_fields.
        rewrite Nat.eqb_refl, E12, map_app. cbn [map firstItems secondItems
          flat_map app]. rewrite app_nil_r.
        repeat split. now destruct bd.
      - rewrite exec_handleSearch_resolve. state_fields.
        cbn [firstItems secondItems flat_map app]. rewrite !app_nil_r.
        repeat split.
      - rewrite exec_handleSearch_reject. state_fields.
        cbn [firstItems secondItems flat_map app]. rewrite !app_nil_r.
        repeat split. }
    destruct Hs1 as [Ha [Hb Hc]].
    split.
    { rewrite H1, Ha, <- app_assoc. f_equal.
      unfold firstItems. cbn [flat_map]. now rewrite app_nil_r. }
    split.
    { rewrite H2, Hb, <- app_assoc. f_equal.
      unfold secondItems. cbn [flat_map]. now rewrite app_nil_r. }
    rewrite Hshown. cbn [lastWrite].
    destruct (lastWrite rest) as [w|] eqn:Hrest.
    + destruct w; try reflexivity.
      exfalso. now apply (lastWrite_not_resolved rest).
    + destruct (run_no_write sid1 sid2 rest s1 Hrest) as [Hn _].
      rewrite Hn, Hc. destruct o; reflexivity.
Qed.

(** C2, as the code has it. When a second search starts while a first one is
    pending, each search accumulates its own items only. Once the second
    search has completed, the displayed list is the one written last since
    the second search started: it is empty if no item arrived and the first
    search was not rejected since then; it is the accumulated list of the
    second search if the last such event was an item of the second search,
    the accumulated list of the first search if it was an item of the first
    search, and the prebuilt catalog if it was the rejection of the first
    search. The graceful end of the first search does not write the display.
    The displayed list is never a mix of the items of both searches. *)
Theorem overlapping_searches_last_write_shown
    (sid1 sid2 : SearchId) (pre : list BookData.t) (ov : list Overlap)
    (s : State) :
  sid1 <> sid2 ->
  let es := searchStarted sid1 :: map (itemArrived sid1) pre
            ++ searchStarted sid2 :: map (overlapEvent sid1 sid2) ov
            ++ [searchResolved sid2] in
  let s' := exec (runSearchEvents env prebuiltBooks es) s in
  map dataOf (newBooks s' sid2) = secondItems ov
  /\ map dataOf (newBooks s' sid1) = pre ++ firstItems ov
  /\ displayedBooks s'
     = match lastWrite ov with
       | None => []
       | Some (firstItem _) => newBooks s' sid1
       | Some (secondItem _) => newBooks s' sid2
       | Some firstRejected => prebuiltBooks
       | Some firstResolved => []
       end.
Proof.
  intros Hne es s'. unfold s', es.
  rewrite exec_runSearchEvents_cons, exec_runSearchEvents_app.
  rewrite exec_runSearchEvents_cons, exec_runSearchEvents_app.
  rewrite exec_runSearchEvents_cons.
  change (exec (runSearchEvents env prebuiltBooks []) ?x) with x.
  cbn [searchStep]. rewrite items_as_arrivals.
  set (sA := exec (handleSearch_begin sid1) s).
  destruct (run_arrivals (map (fun bookData => (sid1, bookData)) pre) sA)
    as [HnewB _].
  set (sB := exec (runSearchEvents env prebuiltBooks
                     (map arrive (map (fun bookData => (sid1, bookData)) pre)))
                sA) in *.
  set (sC := exec (handleSearch_begin sid2) sB).
  destruct (run_overlap sid1 sid2 ov sC Hne) as [H1 [H2 Hshown]].
  set (sD := exec (runSearchEvents env prebuiltBooks
                     (map (overlapEvent sid1 sid2) ov)) sC) in *.
  rewrite exec_handleSearch_resolve. state_fields.
  assert (HA : newBooks sA sid1 = []).
  { unfold sA. rewrite exec_handleSearch_begin. state_fields.
    now rewrite Nat.eqb_refl. }
  assert (HC2 : newBooks sC sid2 = []).
  { unfold sC. rewrite exec_handleSearch_begin. state_fields.
    now rewrite Nat.eqb_refl. }
  assert (HC1 : newBooks sC sid1 = newBooks sB sid1).
  { unfold sC. rewrite exec_handleSearch_begin. state_fields.
    assert (Nat.eqb sid1 sid2 = false) as -> by (now apply Nat.eqb_neq).
    reflexivity. }
  assert (HCshown : displayedBooks sC = []).
  { unfold sC. rewrite exec_handleSearch_begin. reflexivity. }
  split.
  { rewrite H2, HC2. reflexivity. }
  split.
  { rewrite H1, HC1, HnewB, HA. cbn [app].
    now rewrite data_of_ingested, own_arrivals. }
  rewrite Hshown, HCshown. reflexivity.
Qed.

Lemma lastWriter_own (sid : SearchId) (items : list BookData.t) :
  lastWriter (map (fun bookData => (sid, bookData)) items)
  = match items with
    | [] => None
    | _ :: _ => Some sid
    end.
Proof.
  induction items as [|bd rest IH]; cbn [map lastWriter].
  - reflexivity.
  - rewrite IH. destruct rest; reflexivity.
Qed.

(** One search from its start, while its items arrive and no other handler
    touches the display. *)
Lemma single_search_run (sid : SearchId) (items : list BookData.t) (s : State) :
  let sP := exec (runSearchEvents env prebuiltBooks
                    (searchStarted sid :: map (itemArrived sid) items)) s in
  displayedBooks sP = newBooks sP sid
  /\ map dataOf (displayedBooks sP) = items
  /\ (forall b, In b (displayedBooks sP) ->
                exists k, Book.id b = uuidv4_at env k)
  /\ inventory sP = inventory s
  /\ isLoading sP = true.
Proof.
  intros sP. unfold sP.
  rewrite exec_runSearchEvents_cons, items_as_arrivals. cbn [searchStep].
  set (sA := exec (handleSearch_begin sid) s).
  destruct (run_arrivals (map (fun bookData => (sid, bookData)) items) sA)
    as [Hnew [Hshown [Hinv Hload]]].
  set (sB := exec (runSearchEvents env prebuiltBooks
                     (map arrive (map (fun bookData => (sid, bookData)) items)))
                sA) in *.
  assert (HA : newBooks sA sid = []).
  { unfold sA. rewrite exec_handleSearch_begin. state_fields.
    now rewrite Nat.eqb_refl. }
  assert (Hown : displayedBooks sB = newBooks sB sid).
  { rewrite Hshown, lastWriter_own. destruct items as [|bd rest].
    - rewrite Hnew, HA. reflexivity.
    - reflexivity. }
  split; [exact Hown|].
  rewrite Hown, Hnew, HA. cbn [app].
  split; [rewrite data_of_ingested; apply own_arrivals|].
  split.
  { intros b Hin. apply ids_of_ingested in Hin.
    destruct Hin as [k [_ Hid]]. now exists k. }
  split.
  - rewrite Hinv. reflexivity.
  - rewrite Hload. reflexivity.
Qed.

(** C6. A search whose stream fails after any number of items were displayed:
    the displayed list becomes the prebuilt catalog, which is not empty and is
    not the list of partial items, and the inventory is the one before the
    search. The catalog is assumed non-empty, and the identifier source is
    assumed never to yield the id of a catalog book. *)
Theorem failed_search_shows_fallback
    (sid : SearchId) (items : list BookData.t) (s : State) :
  prebuiltBooks <> [] ->
  (forall k, ~ In (uuidv4_at env k) (map Book.id prebuiltBooks)) ->
  let partial := exec (runSearchEvents env prebuiltBooks
                         (searchStarted sid :: map (itemArrived sid) items))
                   s in
  let s' := exec (handleSearch_reject prebuiltBooks sid) partial in
  map dataOf (displayedBooks partial) = items
  /\ displayedBooks s' = prebuiltBooks
  /\ displayedBooks s' <> []
  /\ displayedBooks s' <> displayedBooks partial
  /\ inventory s' = inventory s
  /\ isLoading s' = false.
Proof.
  intros Hnonempty Hfresh partial s'.
  destruct (single_search_run sid items s) as [_ [Hdata [Hids [Hinv _]]]].
  fold partial in Hdata, Hids, Hinv.
  unfold s'. rewrite exec_handleSearch_reject. state_fields.
  split; [exact Hdata|].
  split; [reflexivity|].
  split; [exact Hnonempty|].
  split; [|split; [exact Hinv|reflexivity]].
  intros Heq.
  destruct prebuiltBooks as [|b rest] eqn:Hpb; [now apply Hnonempty|].
  destruct (Hids b) as [k Hk]; [rewrite <- Heq; now left|].
  apply (Hfresh k). rewrite <- Hk. now left.
Qed.





End Search.

(** Search 1 starts while search 0 is pending; an item of search 0 arrives
    after the only item of search 1, and search 1 then completes with the
    two books of search 0 on display. *)
Lemma second_search_not_exclusive_counterexample :
  let es := [searchStarted 0%nat; itemArrived 0%nat Sample.dataC;
             searchStarted 1%nat; itemArrived 1%nat Sample.dataD;
             itemArrived 0%nat Sample.dataE; searchResolved 1%nat] in
  let s' := exec (runSearchEvents Sample.env Sample.prebuilt es) Sample.start in
  map dataOf (newBooks s' 1%nat) = [Sample.dataD]
  /\ map dataOf (displayedBooks s') = [Sample.dataC; Sample.dataE]
  /\ displayedBooks s' <> newBooks s' 1%nat.
Proof.
  intros es s'.
  assert (H1 : map dataOf (newBooks s' 1%nat) = [Sample.dataD])
    by reflexivity.
  assert (H2 : map dataOf (displayedBooks s') = [Sample.dataC; Sample.dataE])
    by reflexivity.
  split; [exact H1|]. split; [exact H2|].
  intros Heq. rewrite Heq, H1 in H2. discriminate H2.
Qed.

(** Search 1 starts while search 0 holds one book; its only item arrives,
    then search 0 is rejected, then search 1 completes: the catalog is on
    display. *)
Lemma overlapping_searches_last_write_shown_witness :
  0%nat <> 1%nat
  /\ let es := searchStarted 0%nat :: map (itemArrived 0%nat) [Sample.dataC]
               ++ searchStarted 1%nat
                  :: map (overlapEvent 0 1)
                       [secondItem Sample.dataD; firstRejected]
               ++ [searchResolved 1%nat] in
     let s' := exec (runSearchEvents Sample.env Sample.prebuilt es)
                 Sample.start in
     map dataOf (newBooks s' 1%nat) = [Sample.dataD]
     /\ map dataOf (newBooks s' 0%nat) = [Sample.dataC]
     /\ displayedBooks s' = Sample.prebuilt.
Proof.
  split; [discriminate|].
  intros es s'.
  assert (Hne : 0%nat <> 1%nat) by discriminate.
  exact (overlapping_searches_last_write_shown Sample.env Sample.prebuilt
           0%nat 1%nat [Sample.dataC]
           [secondItem Sample.dataD; firstRejected] Sample.start Hne).
Defined.

(** The same overlap, evaluated, and three more: an item of search 0 last, an
    item of search 1 last, and nothing but the graceful end of search 0. *)
Example overlapping_searches_sample_runs :
  let shown := fun ov =>
    displayedBooks
      (exec (runSearchEvents Sample.env Sample.prebuilt
               (searchStarted 0%nat :: map (itemArrived 0%nat) [Sample.dataC]
                ++ searchStarted 1%nat :: map (overlapEvent 0 1) ov
                ++ [searchResolved 1%nat])) Sample.start) in
  shown [secondItem Sample.dataD; firstRejected] = Sample.prebuilt
  /\ map dataOf (shown [secondItem Sample.dataD; firstItem Sample.dataE])
     = [Sample.dataC; Sample.dataE]
  /\ map dataOf (shown [firstItem Sample.dataE; secondItem Sample.dataD])
     = [Sample.dataD]
  /\ shown [firstResolved] = [].
Proof. repeat split. Qed.

(** Two items of a search on the sample catalog, then the failure. *)
Lemma failed_search_shows_fallback_witness :
  Sample.prebuilt <> []
  /\ (forall k, ~ In (uuidv4_at Sample.env k) (map Book.id Sample.prebuilt))
  /\ let partial := exec (runSearchEvents Sample.env Sample.prebuilt
                            (searchStarted 0%nat
                             :: map (itemArrived 0%nat)
                                  [Sample.dataC; Sample.dataD]))
                      Sample.start in
     let s' := exec (handleSearch_reject Sample.prebuilt 0%nat) partial in
     map dataOf (displayedBooks partial) = [Sample.dataC; Sample.dataD]
     /\ displayedBooks s' = [Sample.bookA; Sample.bookB]
     /\ displayedBooks s' <> displayedBooks partial
     /\ inventory s' = [Sample.bookA; Sample.bookB].
Proof.
  assert (Hne : Sample.prebuilt <> []) by discriminate.
  assert (Hfresh : forall k,
            ~ In (uuidv4_at Sample.env k) (map Book.id Sample.prebuilt)).
  { intros k [H|[H|[]]]; discriminate H. }
  split; [exact Hne|]. split; [exact Hfresh|].
  intros partial s'.
  destruct (failed_search_shows_fallback Sample.env Sample.prebuilt 0%nat
              [Sample.dataC; Sample.dataD] Sample.start Hne Hfresh)
    as [Hdata [Hshown [_ [Hdiff [Hinv _]]]]].
  split; [exact Hdata|]. split; [exact Hshown|].
  split; [exact Hdiff|exact Hinv].
Defined.


(** ** Notification panel *)

Section NotificationPanel.

Variable env : Env.

Lemma state_eta (s : State) :
  mkState (displayedBooks s) (inventory s) (isLoading s) (selectedBook s)
    (currentView s) (isAdmin s) (salesData s) (cart s) (notifications s)
    (newBooks s) (uuid_calls s) (date_calls s) (random_calls s) = s.
Proof. destruct s; reflexivity. Qed.

Lemma setNotifications_same (f : list Notification.t -> list Notification.t)
    (s : State) :
  f (notifications s) = notifications s -> setNotifications f s = s.
Proof.
  intros Hf. unfold setNotifications. rewrite Hf. apply state_eta.
Qed.

Lemma filter_twice {A} (p : A -> bool) (l : list A) :
  filter p (filter p l) = filter p l.
Proof.
  induction l as [|x rest IH]; simpl.
  - reflexivity.
  - destruct (p x) eqn:E; simpl; [rewrite E|]; now rewrite ?IH.
Qed.

Lemma filter_all {A} (p : A -> bool) (l : list A) :
  (forall x, In x l -> p x = true) -> filter p l = l.
Proof.
  induction l as [|x rest IH]; simpl; intros Hall.
  - reflexivity.
  - rewrite (Hall x) by now left. f_equal. apply IH. intros y Hy.
    apply Hall. now right.
Qed.

(** X1. Dismissing an id removes from the log exactly the notifications
    carrying it and keeps the others in their order; a second dismissal of
    the same id changes nothing, and dismissing an id that is not in the log
    leaves the whole state as it is. *)
Theorem dismiss_removes_exactly (id : string) (s : State) :
  let s' := exec (handleDismissNotification id) s in
  (forall n, In n (notifications s')
             <-> In n (notifications s) /\ Notification.id n <> id)
  /\ (exists keep, notifications s' = filter keep (notifications s))
  /\ exec (handleDismissNotification id) s' = s'
  /\ (~ In id (map Notification.id (notifications s)) -> s' = s).
Proof.
  intros s'. unfold s', handleDismissNotification, exec, modify. cbn [snd].
  split.
  { intros n. cbn [notifications setNotifications]. rewrite filter_In.
    rewrite negb_true_iff. split; intros [Hin Hid]; split; auto.
    - intros Heq. apply String.eqb_eq in Heq. congruence.
    - apply String.eqb_neq. exact Hid. }
  split.
  { eexists. reflexivity. }
  split.
  { apply setNotifications_same. cbn [notifications setNotifications].
    apply filter_twice. }
  intros Hnotin. apply setNotifications_same. apply filter_all.
  intros n Hn. apply negb_true_iff. apply String.eqb_neq.
  intros Heq. apply Hnotin. rewrite <- Heq. now apply in_map.
Qed.

Lemma readMonotone_markOne (id : string) (log : list Notification.t) :
  readMonotone log
    (map (fun n =>
            if (Notification.id n =? id)%string
            then Notification.mk (Notification.id n) (Notification.message n)
                   (Notification.timestamp n) true
            else n) log).
Proof.
  unfold readMonotone. induction log as [|n rest IH]; cbn [map].
  - constructor.
  - constructor; [|exact IH].
    destruct (Notification.id n =? id)%string; cbn; auto.
Qed.

Lemma readMonotone_markAll (log : list Notification.t) :
  readMonotone log
    (map (fun n =>
            Notification.mk (Notification.id n) (Notification.message n)
              (Notification.timestamp n) true) log).
Proof.
  unfold readMonotone. induction log as [|n rest IH]; cbn [map].
  - constructor.
  - constructor; [|exact IH]. cbn; auto.
Qed.

Lemma map_fixed {A} (f : A -> A) (l : list A) :
  (forall x, In x l -> f x = x) -> map f l = l.
Proof.
  induction l as [|x rest IH]; simpl; intros Hfix.
  - reflexivity.
  - rewrite Hfix by now left. f_equal. apply IH. intros y Hy.
    apply Hfix. now right.
Qed.

(** X2. Marking an id as read keeps the log entry by entry (same ids,
    messages and timestamps, same order) and never turns a read entry
    unread; afterwards every entry carrying the id is read and every entry
    with another id is the one it was. A second marking changes nothing, and
    marking an id that is not in the log leaves the whole state as it is. *)
Theorem mark_as_read_one_way (id : string) (s : State) :
  let s' := exec (handleMarkAsRead id) s in
  readMonotone (notifications s) (notifications s')
  /\ (forall n, In n (notifications s') -> Notification.id n = id ->
                Notification.read n = true)
  /\ (forall n, In n (notifications s) -> Notification.id n <> id ->
                In n (notifications s'))
  /\ exec (handleMarkAsRead id) s' = s'
  /\ (~ In id (map Notification.id (notifications s)) -> s' = s).
Proof.
  intros s'. unfold s', handleMarkAsRead, exec, modify. cbn [snd].
  cbn [notifications setNotifications].
  split; [apply readMonotone_markOne|].
  split.
  { intros n Hin Hid. apply in_map_iff in Hin. destruct Hin as [m [Hm _]].
    destruct (Notification.id m =? id)%string eqn:E; subst n.
    - reflexivity.
    - apply String.eqb_neq in E. contradiction. }
  split.
  { intros n Hin Hid. apply in_map_iff. exists n. split; [|exact Hin].
    apply String.eqb_neq in Hid. now rewrite Hid. }
  split.
  { apply setNotifications_same. cbn [notifications setNotifications].
    apply map_fixed. intros n Hin. apply in_map_iff in Hin.
    destruct Hin as [m [Hm _]].
    destruct (Notification.id m =? id)%string eqn:E; subst n; cbn.
    - rewrite E. reflexivity.
    - rewrite E. reflexivity. }
  intros Hnotin. apply setNotifications_same. apply map_fixed.
  intros n Hn.
  destruct (Notification.id n =? id)%string eqn:E; [|reflexivity].
  apply String.eqb_eq in E. exfalso. apply Hnotin. rewrite <- E.
  now apply in_map.
Qed.

(** X3. Marking all as read keeps the log entry by entry and leaves every
    entry read; after it, marking all again or marking any single id changes
    nothing. *)
Theorem mark_all_as_read_absorbs (id : string) (s : State) :
  let s' := exec handleMarkAllAsRead s in
  readMonotone (notifications s) (notifications s')
  /\ Forall (fun n => Notification.read n = true) (notifications s')
  /\ exec handleMarkAllAsRead s' = s'
  /\ exec (handleMarkAsRead id) s' = s'.
Proof.
  intros s'. unfold s', handleMarkAllAsRead, handleMarkAsRead, exec, modify.
  cbn [snd]. cbn [notifications setNotifications].
  split; [apply readMonotone_markAll|].
  split.
  { apply Forall_forall. intros n Hin. apply in_map_iff in Hin.
    destruct Hin as [m [Hm _]]. now subst n. }
  split.
  - apply setNotifications_same. cbn [notifications setNotifications].
    apply map_fixed. intros n Hin. apply in_map_iff in Hin.
    destruct Hin as [m [Hm _]]. now subst n.
  - apply setNotifications_same. cbn [notifications setNotifications].
    apply map_fixed. intros n Hin. apply in_map_iff in Hin.
    destruct Hin as [m [Hm _]]. subst n. cbn.
    destruct (Notification.id m =? id)%string; reflexivity.
Qed.

Lemma firstn_app_firstn {A} (k j : nat) (l1 l2 : list A) :
  (k <= List.length l1 + j)%nat ->
  firstn k (l1 ++ firstn j l2) = firstn k (l1 ++ l2).
Proof.
  intros Hk. rewrite !firstn_app, firstn_firstn.
  replace (Nat.min (k - List.length l1) j) with (k - List.length l1)%nat by lia.
  reflexivity.
Qed.

(** X4. After any pushes onto a log of at most 20 entries, the log is the
    first 20 entries of the pushed notifications, newest first, followed by
    the old log: nothing but the oldest entries is ever lost. *)
Theorem pushes_keep_newest_twenty (messages : list string) (s : State) :
  (List.length (notifications s) <= 20)%nat ->
  notifications (exec (pushAll env messages) s)
  = firstn 20 (rev (pushedNotes env (uuid_calls s) (date_calls s) messages)
               ++ notifications s).
Proof.
  revert s. induction messages as [|m rest IH]; intros s Hlen.
  - cbn [pushedNotes rev app].
    change (exec (pushAll env []) s) with s.
    symmetry. apply firstn_all2. exact Hlen.
  - rewrite exec_pushAll_cons, IH.
    + rewrite exec_addNotification. state_fields.
      cbn [pushedNotes rev]. rewrite <- app_assoc. cbn [app].
      unfold pushNotification, freshNotification.
      change (?n :: firstn 19 ?l) with ([n] ++ firstn 19 l).
      rewrite app_assoc, firstn_app_firstn.
      * rewrite <- app_assoc. reflexivity.
      * rewrite length_app. cbn [List.length]. lia.
    + rewrite exec_addNotification. cbn [notifications].
      apply pushNotification_length.
Qed.

End NotificationPanel.

(** Three pushes on the sample log of two entries. *)
Lemma pushes_keep_newest_twenty_witness :
  (List.length (notifications SampleMore.withLog) <= 20)%nat
  /\ map Notification.message
       (notifications
          (exec (pushAll Sample.env ["a"; "b"; "c"]) SampleMore.withLog))
     = ["c"; "b"; "a"; "second"; "first"].
Proof.
  split; [cbn; lia|].
  rewrite (pushes_keep_newest_twenty Sample.env ["a"; "b"; "c"]
             SampleMore.withLog); [reflexivity|cbn; lia].
Defined.

(** ** Cart operations, one by one and composed *)

Section CartAlgebra.

Variable env : Env.

Lemma setCart_same (f : list CartItem.t -> list CartItem.t) (s : State) :
  f (cart s) = cart s -> setCart f s = s.
Proof.
  intros Hf. unfold setCart. rewrite Hf. apply state_eta.
Qed.

Lemma increment_absent (bookId : string) (items : list CartItem.t) :
  ~ In bookId (lineIds items) -> map (incrementLine bookId) items = items.
Proof.
  intros Hnotin. apply map_fixed. intros item Hin. unfold incrementLine.
  destruct (CartItem.id item =? bookId)%string eqn:E; [|reflexivity].
  apply String.eqb_eq in E. exfalso. apply Hnotin. rewrite <- E.
  unfold lineIds. now apply in_map.
Qed.

Lemma decrement_absent (bookId : string) (items : list CartItem.t) :
  ~ In bookId (lineIds items) -> map (decrementLine bookId) items = items.
Proof.
  intros Hnotin. apply map_fixed. intros item Hin. unfold decrementLine.
  destruct (CartItem.id item =? bookId)%string eqn:E; [|reflexivity].
  apply String.eqb_eq in E. exfalso. apply Hnotin. rewrite <- E.
  unfold lineIds. now apply in_map.
Qed.

Lemma sum_increment (bookId : string) (items : list CartItem.t) :
  NoDup (lineIds items) -> In bookId (lineIds items) ->
  sumQuantities (map (incrementLine bookId) items) = sumQuantities items + 1.
Proof.
  unfold lineIds. induction items as [|x rest IH]; cbn [map]; intros Hnd Hin.
  - contradiction.
  - inversion Hnd as [|h l Hnotin Hrest]; subst.
    cbn [sumQuantities]. unfold incrementLine at 1.
    destruct (CartItem.id x =? bookId)%string eqn:E.
    + apply String.eqb_eq in E. subst bookId.
      rewrite increment_absent by exact Hnotin. cbn. lia.
    + destruct Hin as [Hin|Hin].
      * subst bookId. rewrite String.eqb_refl in E. discriminate.
      * rewrite IH by assumption. lia.
Qed.

Lemma sum_decrement (bookId : string) (items : list CartItem.t) :
  NoDup (lineIds items) -> In bookId (lineIds items) ->
  sumQuantities (map (decrementLine bookId) items) = sumQuantities items - 1.
Proof.
  unfold lineIds. induction items as [|x rest IH]; cbn [map]; intros Hnd Hin.
  - contradiction.
  - inversion Hnd as [|h l Hnotin Hrest]; subst.
    cbn [sumQuantities]. unfold decrementLine at 1.
    destruct (CartItem.id x =? bookId)%string eqn:E.
    + apply String.eqb_eq in E. subst bookId.
      rewrite decrement_absent by exact Hnotin. cbn. lia.
    + destruct Hin as [Hin|Hin].
      * subst bookId. rewrite String.eqb_refl in E. discriminate.
      * rewrite IH by assumption. lia.
Qed.

(** X5. Removing a book leaves no line with its id and keeps every other
    line; removing a book that has no line, or removing a second time,
    changes nothing; in a cart with one line per id the unit count drops by
    the whole quantity of the removed line. *)
Theorem remove_deletes_line (bookToRemove : Book.t) (s : State) :
  let s' := exec (handleRemoveFromCart bookToRemove) s in
  ~ In (Book.id bookToRemove) (lineIds (cart s'))
  /\ (forall item, CartItem.id item <> Book.id bookToRemove ->
                   (In item (cart s') <-> In item (cart s)))
  /\ (~ In (Book.id bookToRemove) (lineIds (cart s)) -> s' = s)
  /\ exec (handleRemoveFromCart bookToRemove) s' = s'
  /\ (forall item,
        NoDup (lineIds (cart s)) -> In item (cart s) ->
        CartItem.id item = Book.id bookToRemove ->
        totalCartItems s' = totalCartItems s - CartItem.quantity item).
Proof.
  intros s'. unfold s', handleRemoveFromCart, exec, modify. cbn [snd].
  split.
  { cbn [cart setCart]. apply filter_out_lineIds. }
  split.
  { intros item Hid. cbn [cart setCart]. rewrite filter_In.
    apply String.eqb_neq in Hid. rewrite Hid. cbn. tauto. }
  split.
  { intros Hnotin. apply setCart_same. now apply filter_out_absent. }
  split.
  { apply setCart_same. cbn [cart setCart]. apply filter_twice. }
  intros item Hnd Hin Hid.
  rewrite !totalCartItems_sum. cbn [cart setCart].
  rewrite <- Hid. now apply sumQuantities_filter_out.
Qed.

(** X6. Increasing a book id that has no line changes nothing; otherwise the
    lines keep their ids and order, and in a cart with one line per id the
    unit count goes up by exactly one. *)
Theorem increase_adds_one_unit (bookId : string) (s : State) :
  let s' := exec (handleIncreaseQuantity bookId) s in
  (~ In bookId (lineIds (cart s)) -> s' = s)
  /\ lineIds (cart s') = lineIds (cart s)
  /\ (NoDup (lineIds (cart s)) -> In bookId (lineIds (cart s)) ->
      totalCartItems s' = totalCartItems s + 1).
Proof.
  intros s'. unfold s', handleIncreaseQuantity, exec, modify. cbn [snd].
  split.
  { intros Hnotin. apply setCart_same. now apply increment_absent. }
  split.
  { cbn [cart setCart]. apply lineIds_increment. }
  intros Hnd Hin. rewrite !totalCartItems_sum. cbn [cart setCart].
  now apply sum_increment.
Qed.

(** X7. Decreasing a book id that has no line changes nothing; decreasing a
    line whose quantity exceeds 1, in a cart with one line per id, keeps the
    ids and order of the lines and takes exactly one unit off the count. *)
Theorem decrease_takes_one_unit (bookId : string) (s : State) :
  let s' := exec (handleDecreaseQuantity bookId) s in
  (~ In bookId (lineIds (cart s)) -> s' = s)
  /\ (forall item,
        NoDup (lineIds (cart s)) -> In item (cart s) ->
        CartItem.id item = bookId -> 1 < CartItem.quantity item ->
        lineIds (cart s') = lineIds (cart s)
        /\ totalCartItems s' = totalCartItems s - 1).
Proof.
  intros s'. unfold s', handleDecreaseQuantity, exec, modify. cbn [snd].
  split.
  { intros Hnotin. apply setCart_same.
    destruct (find _ (cart s)) as [found|] eqn:Hfind.
    - exfalso. apply Hnotin. apply find_some in Hfind.
      destruct Hfind as [Hfin Hfid]. apply String.eqb_eq in Hfid.
      rewrite <- Hfid. unfold lineIds. now apply in_map.
    - now apply filter_out_absent. }
  intros item Hnd Hin Hid Hq. subst bookId.
  rewrite !totalCartItems_sum. cbn [cart setCart].
  rewrite (find_in_NoDup item (cart s) Hnd Hin).
  apply Z.ltb_lt in Hq. rewrite Hq. split.
  - apply lineIds_decrement.
  - apply sum_decrement; [exact Hnd|]. unfold lineIds. now apply in_map.
Qed.

Lemma decrement_increment (bookId : string) (item : CartItem.t) :
  decrementLine bookId (incrementLine bookId item) = item.
Proof.
  destruct item as [b q]. unfold incrementLine, decrementLine, CartItem.id.
  cbn. destruct (Book.id b =? bookId)%string eqn:E; cbn; rewrite E.
  - f_equal. lia.
  - reflexivity.
Qed.

(** X8. In a cart whose quantities are positive, increasing a book id and
    then decreasing it gives back the state one started from, whether or not
    the id has a line. *)
Theorem increase_then_decrease_restores (bookId : string) (s : State) :
  Forall (fun item => 0 < CartItem.quantity item) (cart s) ->
  exec (handleDecreaseQuantity bookId) (exec (handleIncreaseQuantity bookId) s)
  = s.
Proof.
  intros Hpos.
  unfold handleDecreaseQuantity, handleIncreaseQuantity, exec, modify.
  cbn [snd].
  assert (Hgoal :
    match find (fun item => (CartItem.id item =? bookId)%string)
            (map (incrementLine bookId) (cart s)) with
    | Some itemToDecrease =>
        if (1 <? CartItem.quantity itemToDecrease)%Z
        then map (decrementLine bookId) (map (incrementLine bookId) (cart s))
        else filter (fun item => negb (CartItem.id item =? bookId)%string)
               (map (incrementLine bookId) (cart s))
    | None =>
        filter (fun item => negb (CartItem.id item =? bookId)%string)
          (map (incrementLine bookId) (cart s))
    end = cart s).
  { destruct (find _ (map (incrementLine bookId) (cart s))) as [found|]
      eqn:Hfind.
    - apply find_some in Hfind. destruct Hfind as [Hfin Hfid].
      apply in_map_iff in Hfin. destruct Hfin as [x [Hx Hxin]].
      rewrite Forall_forall in Hpos. specialize (Hpos x Hxin).
      assert (Hq : (1 <? CartItem.quantity found)%Z = true).
      { subst found. unfold incrementLine in *.
        destruct (CartItem.id x =? bookId)%string eqn:E.
        - cbn. apply Z.ltb_lt. lia.
        - rewrite E in Hfid. discriminate. }
      rewrite Hq, map_map. apply map_fixed. intros item _.
      apply decrement_increment.
    - assert (Hnotin : ~ In bookId (lineIds (cart s))).
      { rewrite <- (lineIds_increment bookId).
        now apply find_none_lineIds. }
      rewrite increment_absent by exact Hnotin.
      now apply filter_out_absent. }
  unfold setCart at 1. cbn [cart setCart displayedBooks inventory isLoading
    selectedBook currentView isAdmin salesData notifications newBooks
    uuid_calls date_calls random_calls].
  rewrite Hgoal. apply state_eta.
Qed.

Lemma exec_runCartOps_cons (op : CartOp) (ops : list CartOp) (s : State) :
  exec (runCartOps env (op :: ops)) s
  = exec (runCartOps env ops) (exec (applyCartOp env op) s).
Proof. cbn [runCartOps]. now rewrite exec_bind. Qed.

Lemma exec_add_present (b : Book.t) (s : State) :
  In (Book.id b) (lineIds (cart s)) ->
  exec (handleAddToCart env b) s
  = setCart (map (incrementLine (Book.id b))) s.
Proof.
  intros Hin. destruct (find_some_lineIds _ _ Hin) as [found Hfind].
  unfold handleAddToCart, exec, bind, gets. cbn [fst snd].
  rewrite Hfind. reflexivity.
Qed.

Lemma exec_add_absent (b : Book.t) (s : State) :
  ~ In (Book.id b) (lineIds (cart s)) ->
  exec (handleAddToCart env b) s
  = setCart (fun prevCart => prevCart ++ [CartItem.mk b 1])
      (exec (addNotification env (addedMessage b)) s).
Proof.
  intros Hnotin.
  assert (Hfind :
    find (fun item => (CartItem.id item =? Book.id b)%string) (cart s) = None).
  { destruct (find _ (cart s)) as [found|] eqn:Hfind; [|reflexivity].
    exfalso. apply Hnotin. apply find_some in Hfind.
    destruct Hfind as [Hfin Hfid]. apply String.eqb_eq in Hfid.
    rewrite <- Hfid. unfold lineIds. now apply in_map. }
  unfold handleAddToCart, exec, bind, gets. cbn [fst snd].
  rewrite Hfind. reflexivity.
Qed.

Lemma repeated_add_present (b : Book.t) (n : nat) (before : list CartItem.t)
    (q : Z) (s : State) :
  cart s = before ++ [CartItem.mk b q] ->
  ~ In (Book.id b) (lineIds before) ->
  let s' := exec (runCartOps env (repeat (add b) n)) s in
  cart s' = before ++ [CartItem.mk b (q + Z.of_nat n)]
  /\ notifications s' = notifications s
  /\ uuid_calls s' = uuid_calls s.
Proof.
  revert q s. induction n as [|n IH]; intros q s Hcart Hnotin.
  - cbn. rewrite Hcart, Z.add_0_r. repeat split.
  - cbn zeta. cbn [repeat]. rewrite exec_runCartOps_cons. cbn [applyCartOp].
    assert (Hin : In (Book.id b) (lineIds (cart s))).
    { rewrite Hcart. unfold lineIds. rewrite map_app. apply in_or_app.
      right. now left. }
    rewrite (exec_add_present b s Hin).
    specialize (IH (q + 1) (setCart (map (incrementLine (Book.id b))) s)).
    cbn zeta in IH. destruct IH as [Hc [Hn Hu]].
    + cbn [cart setCart]. rewrite Hcart, map_app.
      rewrite increment_absent by exact Hnotin. cbn [map].
      unfold incrementLine, CartItem.id. cbn.
      now rewrite String.eqb_refl.
    + exact Hnotin.
    + rewrite Hc, Hn, Hu. repeat split. do 3 f_equal. lia.
Qed.

(** X9. Adding a book that has no line, any positive number of times in a
    row, leaves the old lines as they were, followed by one line of the book
    whose quantity is the number of additions; only the first addition
    pushes a notification. *)
Theorem repeated_add_counts_units (b : Book.t) (n : nat) (s : State) :
  ~ In (Book.id b) (lineIds (cart s)) ->
  let s' := exec (runCartOps env (repeat (add b) (S n))) s in
  cart s' = cart s ++ [CartItem.mk b (Z.of_nat (S n))]
  /\ notifications s'
     = freshNotification env (addedMessage b) s :: firstn 19 (notifications s)
  /\ uuid_calls s' = S (uuid_calls s).
Proof.
  intros Hnotin s'. unfold s'. cbn [repeat].
  rewrite exec_runCartOps_cons. cbn [applyCartOp].
  rewrite (exec_add_absent b s Hnotin), exec_addNotification.
  match goal with
  | |- context [exec (runCartOps env (repeat (add b) n)) ?t] =>
      destruct (repeated_add_present b n (cart s) 1 t) as [Hc [Hn Hu]];
      [reflexivity | exact Hnotin |]
  end.
  rewrite Hc, Hn, Hu. repeat split. do 3 f_equal. lia.
Qed.

(** X10. Adding a book that has no line and removing it at once gives back
    the cart one started from; the notification of the addition stays in the
    log. *)
Theorem add_then_remove_restores_cart (b : Book.t) (s : State) :
  ~ In (Book.id b) (lineIds (cart s)) ->
  let s' := exec (handleRemoveFromCart b) (exec (handleAddToCart env b) s) in
  cart s' = cart s
  /\ notifications s'
     = freshNotification env (addedMessage b) s :: firstn 19 (notifications s).
Proof.
  intros Hnotin s'. unfold s'.
  rewrite (exec_add_absent b s Hnotin), exec_addNotification.
  unfold handleRemoveFromCart, exec, modify. cbn [snd].
  cbn [cart setCart notifications]. split; [|reflexivity].
  rewrite filter_app. cbn [filter]. unfold CartItem.id at 2. cbn.
  rewrite String.eqb_refl. cbn. rewrite app_nil_r.
  now apply filter_out_absent.
Qed.

End CartAlgebra.

(** Three units of the sample book A: up to four and back. *)
Lemma increase_then_decrease_restores_witness :
  Forall (fun item => 0 < CartItem.quantity item) (cart SampleMore.threeOfA)
  /\ exec (handleDecreaseQuantity "A")
       (exec (handleIncreaseQuantity "A") SampleMore.threeOfA)
     = SampleMore.threeOfA.
Proof.
  assert (Hpos : Forall (fun item => 0 < CartItem.quantity item)
                   (cart SampleMore.threeOfA)).
  { repeat constructor. }
  split; [exact Hpos|].
  exact (increase_then_decrease_restores "A" SampleMore.threeOfA Hpos).
Defined.

(** Four additions of the sample book B to a cart that holds only A. *)
Lemma repeated_add_counts_units_witness :
  ~ In (Book.id Sample.bookB) (lineIds (cart SampleMore.threeOfA))
  /\ cart (exec (runCartOps Sample.env (repeat (add Sample.bookB) 4))
             SampleMore.threeOfA)
     = [CartItem.mk Sample.bookA 3; CartItem.mk Sample.bookB 4].
Proof.
  assert (Habsent :
    ~ In (Book.id Sample.bookB) (lineIds (cart SampleMore.threeOfA))).
  { cbn. intros [H|[]]. discriminate H. }
  split; [exact Habsent|].
  exact (proj1 (repeated_add_counts_units Sample.env Sample.bookB 3
                  SampleMore.threeOfA Habsent)).
Defined.

(** The sample book B added to and removed from a cart that holds only A. *)
Lemma add_then_remove_restores_cart_witness :
  ~ In (Book.id Sample.bookB) (lineIds (cart SampleMore.threeOfA))
  /\ cart (exec (handleRemoveFromCart Sample.bookB)
             (exec (handleAddToCart Sample.env Sample.bookB)
                SampleMore.threeOfA))
     = [CartItem.mk Sample.bookA 3].
Proof.
  assert (Habsent :
    ~ In (Book.id Sample.bookB) (lineIds (cart SampleMore.threeOfA))).
  { cbn. intros [H|[]]. discriminate H. }
  split; [exact Habsent|].
  exact (proj1 (add_then_remove_restores_cart Sample.env Sample.bookB
                  SampleMore.threeOfA Habsent)).
Defined.

(** ** Ingestion, item by item *)

Section Ingestion.

Variable env : Env.
Variable prebuiltBooks : list Book.t.

Lemma ids_of_own (u r : nat) (sid : SearchId) (items : list BookData.t) :
  map Book.id
    (ingested env u r sid (map (fun bookData => (sid, bookData)) items))
  = map (uuidv4_at env) (seq u (List.length items)).
Proof.
  revert u r. induction items as [|bd rest IH]; intros u r.
  - reflexivity.
  - cbn [map ingested fst snd List.length seq].
    rewrite Nat.eqb_refl, map_app, IH. reflexivity.
Qed.

(** The array and the display of one search whose items have arrived. *)
Lemma single_search_books (sid : SearchId) (items : list BookData.t)
    (s : State) :
  let sP := exec (runSearchEvents env prebuiltBooks
                    (searchStarted sid :: map (itemArrived sid) items)) s in
  newBooks sP sid
  = ingested env (uuid_calls s) (random_calls s) sid
      (map (fun bookData => (sid, bookData)) items)
  /\ displayedBooks sP = newBooks sP sid
  /\ inventory sP = inventory s.
Proof.
  intros sP. unfold sP.
  destruct (single_search_run env prebuiltBooks sid items s)
    as [Hown [_ [_ [Hinv _]]]].
  split; [|split; assumption].
  rewrite exec_runSearchEvents_cons, items_as_arrivals. cbn [searchStep].
  destruct (run_arrivals env prebuiltBooks
              (map (fun bookData => (sid, bookData)) items)
              (exec (handleSearch_begin sid) s)) as [Hnew _].
  rewrite Hnew, exec_handleSearch_begin. state_fields.
  now rewrite Nat.eqb_refl.
Qed.

Lemma exec_search_to_end (sid : SearchId) (items : list BookData.t)
    (s : State) :
  exec (runSearchEvents env prebuiltBooks
          (searchStarted sid :: map (itemArrived sid) items
           ++ [searchResolved sid])) s
  = exec (handleSearch_resolve sid)
      (exec (runSearchEvents env prebuiltBooks
               (searchStarted sid :: map (itemArrived sid) items)) s).
Proof.
  change (searchStarted sid :: map (itemArrived sid) items
          ++ [searchResolved sid])
    with ((searchStarted sid :: map (itemArrived sid) items)
          ++ [searchResolved sid]).
  rewrite exec_runSearchEvents_app, exec_runSearchEvents_cons.
  reflexivity.
Qed.

Lemma fresh_search_inventory (sid : SearchId) (items : list BookData.t)
    (s : State) :
  (forall k, (uuid_calls s <= k)%nat ->
             ~ In (uuidv4_at env k) (map Book.id (inventory s))) ->
  let s' := exec (runSearchEvents env prebuiltBooks
                    (searchStarted sid :: map (itemArrived sid) items
                     ++ [searchResolved sid])) s in
  inventory s' = inventory s ++ displayedBooks s'
  /\ map dataOf (displayedBooks s') = items
  /\ map Book.id (displayedBooks s')
     = map (uuidv4_at env) (seq (uuid_calls s) (List.length items)).
Proof.
  intros Hfresh s'. unfold s'. rewrite exec_search_to_end.
  destruct (single_search_books sid items s) as [Hnew [Hshown Hinv]].
  destruct (single_search_run env prebuiltBooks sid items s)
    as [_ [Hdata _]].
  set (sP := exec (runSearchEvents env prebuiltBooks
                     (searchStarted sid :: map (itemArrived sid) items)) s)
    in *.
  rewrite exec_handleSearch_resolve. state_fields.
  assert (Hall : filter (unseenIn (inventory sP)) (newBooks sP sid)
                 = newBooks sP sid).
  { apply filter_all. intros b Hb. apply unseenIn_spec.
    rewrite Hnew in Hb. apply ids_of_ingested in Hb.
    destruct Hb as [k [Hk Hid]]. rewrite Hid, Hinv. now apply Hfresh. }
  rewrite Hall, Hshown, Hinv.
  split; [reflexivity|]. split.
  - rewrite <- Hshown. exact Hdata.
  - rewrite Hnew. apply ids_of_own.
Qed.

(** X13. When the identifier source yields no id of the inventory, a search
    that ends gracefully appends every one of its books to the inventory, in
    the order of arrival: the inventory grows by the displayed list. *)
Theorem fresh_ids_all_merged (sid : SearchId) (items : list BookData.t)
    (s : State) :
  (forall k, (uuid_calls s <= k)%nat ->
             ~ In (uuidv4_at env k) (map Book.id (inventory s))) ->
  let s' := exec (runSearchEvents env prebuiltBooks
                    (searchStarted sid :: map (itemArrived sid) items
                     ++ [searchResolved sid])) s in
  inventory s' = inventory s ++ displayedBooks s'
  /\ map dataOf (displayedBooks s') = items
  /\ List.length (inventory s')
     = (List.length (inventory s) + List.length items)%nat.
Proof.
  intros Hfresh s'.
  destruct (fresh_search_inventory sid items s Hfresh) as [Hinv [Hdata _]].
  fold s' in Hinv, Hdata.
  split; [exact Hinv|]. split; [exact Hdata|].
  rewrite Hinv at 1. rewrite length_app. f_equal.
  rewrite <- (length_map dataOf), Hdata. reflexivity.
Qed.

Lemma NoDup_map_seq (f : nat -> string) (u n : nat) :
  (forall i j, (u <= i)%nat -> (u <= j)%nat -> f i = f j -> i = j) ->
  NoDup (map f (seq u n)).
Proof.
  revert u. induction n as [|n IH]; intros u Hinj; cbn [seq map].
  - constructor.
  - constructor.
    + intros Hin. apply in_map_iff in Hin. destruct Hin as [j [Hj Hjin]].
      apply in_seq in Hjin. apply Hinj in Hj; lia.
    + apply IH. intros i j Hi Hj. apply Hinj; lia.
Qed.

(** X14. When the inventory has one book per id and the identifier source
    yields pairwise distinct ids, none of them an id of the inventory, the
    inventory still has one book per id after a search that ends
    gracefully. *)
Theorem inventory_ids_stay_unique (sid : SearchId) (items : list BookData.t)
    (s : State) :
  NoDup (map Book.id (inventory s)) ->
  (forall k, (uuid_calls s <= k)%nat ->
             ~ In (uuidv4_at env k) (map Book.id (inventory s))) ->
  (forall i j, (uuid_calls s <= i)%nat -> (uuid_calls s <= j)%nat ->
               uuidv4_at env i = uuidv4_at env j -> i = j) ->
  let s' := exec (runSearchEvents env prebuiltBooks
                    (searchStarted sid :: map (itemArrived sid) items
                     ++ [searchResolved sid])) s in
  NoDup (map Book.id (inventory s')).
Proof.
  intros Hnd Hfresh Hinj s'.
  destruct (fresh_search_inventory sid items s Hfresh) as [Hinv [_ Hids]].
  fold s' in Hinv, Hids.
  rewrite Hinv, map_app, Hids. apply NoDup_app.
  - exact Hnd.
  - now apply NoDup_map_seq.
  - intros id Hold Hnew. apply in_map_iff in Hnew.
    destruct Hnew as [k [Hk Hkin]]. apply in_seq in Hkin.
    apply (Hfresh k); [lia|]. now rewrite Hk.
Qed.

(** X15. During one search the displayed list grows at its end, one book per
    arriving item and nothing else changing place: after one more item it is
    the list displayed before, followed by one book that carries the data of
    the item, has no reviews yet and whose cover is derived from its id. *)
Theorem display_grows_by_one (sid : SearchId) (items : list BookData.t)
    (bookData : BookData.t) (s : State) :
  let s1 := exec (runSearchEvents env prebuiltBooks
                    (searchStarted sid :: map (itemArrived sid) items)) s in
  let s2 := exec (onItem env sid bookData) s1 in
  exists b,
    displayedBooks s2 = displayedBooks s1 ++ [b]
    /\ dataOf b = bookData
    /\ Book.reviews b = []
    /\ Book.coverImageUrl b
       = ("https://picsum.photos/seed/" ++ Book.id b ++ "/600/800")%string
    /\ inventory s2 = inventory s.
Proof.
  intros s1 s2.
  destruct (single_search_books sid items s) as [_ [Hshown Hinv]].
  fold s1 in Hshown, Hinv.
  exists (bookAt env (uuid_calls s1) (random_calls s1) bookData).
  unfold s2. rewrite exec_onItem. state_fields. rewrite Hshown.
  split; [reflexivity|]. split; [now destruct bookData|].
  split; [reflexivity|]. split; [reflexivity|exact Hinv].
Qed.

(** X16. No moment of any search, in any order, touches the cart, the
    notification log, the sales log, the current screen, the admin flag or
    the selected book. *)
Theorem search_leaves_cart_sales_and_log (es : list SearchEvent) (s : State) :
  let s' := exec (runSearchEvents env prebuiltBooks es) s in
  cart s' = cart s
  /\ notifications s' = notifications s
  /\ salesData s' = salesData s
  /\ currentView s' = currentView s
  /\ isAdmin s' = isAdmin s
  /\ selectedBook s' = selectedBook s.
Proof.
  revert s. induction es as [|e rest IH]; intros s.
  - cbn. repeat split.
  - cbn zeta. rewrite exec_runSearchEvents_cons.
    specialize (IH (exec (searchStep env prebuiltBooks e) s)).
    cbn zeta in IH. destruct IH as [H1 [H2 [H3 [H4 [H5 H6]]]]].
    rewrite H1, H2, H3, H4, H5, H6.
    destruct e; repeat split.
Qed.

(** X17. The array of a search is changed by the events of that search
    only: whatever other searches start, receive or end with, it stays as it
    is. *)
Theorem other_searches_leave_array (sid : SearchId) (es : list SearchEvent)
    (s : State) :
  Forall (fun e => searchOf e <> sid) es ->
  newBooks (exec (runSearchEvents env prebuiltBooks es) s) sid
  = newBooks s sid.
Proof.
  revert s. induction es as [|e rest IH]; intros s Hothers.
  - reflexivity.
  - inversion Hothers as [|x l Hne Hrest]; subst.
    rewrite exec_runSearchEvents_cons, IH by exact Hrest.
    destruct e as [k|k bd|k|k]; cbn [searchStep searchOf] in *.
    + rewrite exec_handleSearch_begin. state_fields.
      assert (Nat.eqb sid k = false) as -> by (apply Nat.eqb_neq; congruence).
      reflexivity.
    + rewrite exec_onItem. state_fields.
      assert (Nat.eqb sid k = false) as -> by (apply Nat.eqb_neq; congruence).
      reflexivity.
    + reflexivity.
    + reflexivity.
Qed.

(** X18. The spinner is shown right after a search starts; it is not shown
    once an item has arrived, nor after the search resolved or was rejected,
    whatever the state these happen in. *)
Theorem spinner_until_first_item_or_end (sid : SearchId)
    (bookData : BookData.t) (s : State) :
  showsSpinner (exec (handleSearch_begin sid) s) = true
  /\ showsSpinner (exec (onItem env sid bookData) s) = false
  /\ showsSpinner (exec (handleSearch_resolve sid) s) = false
  /\ showsSpinner (exec (handleSearch_reject prebuiltBooks sid) s) = false.
Proof.
  split; [reflexivity|]. split.
  - rewrite exec_onItem. unfold showsSpinner. state_fields.
    rewrite length_app. cbn [List.length].
    rewrite Nat.add_1_r. cbn [Nat.eqb]. apply andb_false_r.
  - split; reflexivity.
Qed.

End Ingestion.

Lemma tally_injective (i j : nat) :
  SampleMore.tally i = SampleMore.tally j -> i = j.
Proof.
  revert j. induction i as [|i IH]; intros [|j] H; cbn in H.
  - reflexivity.
  - discriminate H.
  - discriminate H.
  - injection H as H. f_equal. now apply IH.
Qed.

Lemma tally_fresh (k : nat) :
  ~ In (SampleMore.tally k) (map Book.id Sample.prebuilt).
Proof.
  destruct k as [|k]; cbn; intros [H|[H|[]]]; discriminate H.
Qed.

(** Two items on the sample catalog. *)
Lemma fresh_ids_all_merged_witness :
  (forall k, (uuid_calls Sample.start <= k)%nat ->
             ~ In (uuidv4_at SampleMore.env k)
                 (map Book.id (inventory Sample.start)))
  /\ let s' := exec (runSearchEvents SampleMore.env Sample.prebuilt
                       (searchStarted 0%nat
                        :: map (itemArrived 0%nat) [Sample.dataC; Sample.dataD]
                        ++ [searchResolved 0%nat])) Sample.start in
     inventory s' = inventory Sample.start ++ displayedBooks s'
     /\ List.length (inventory s') = 4%nat.
Proof.
  assert (Hfresh : forall k, (uuid_calls Sample.start <= k)%nat ->
            ~ In (uuidv4_at SampleMore.env k)
                (map Book.id (inventory Sample.start))).
  { intros k _. apply tally_fresh. }
  split; [exact Hfresh|].
  intros s'.
  destruct (fresh_ids_all_merged SampleMore.env Sample.prebuilt 0%nat
              [Sample.dataC; Sample.dataD] Sample.start Hfresh)
    as [Hinv [_ Hlen]].
  split; [exact Hinv|exact Hlen].
Defined.

Lemma inventory_ids_stay_unique_witness :
  NoDup (map Book.id (inventory Sample.start))
  /\ (forall k, (uuid_calls Sample.start <= k)%nat ->
                ~ In (uuidv4_at SampleMore.env k)
                    (map Book.id (inventory Sample.start)))
  /\ (forall i j, (uuid_calls Sample.start <= i)%nat ->
                  (uuid_calls Sample.start <= j)%nat ->
                  uuidv4_at SampleMore.env i = uuidv4_at SampleMore.env j ->
                  i = j)
  /\ NoDup (map Book.id
              (inventory
                 (exec (runSearchEvents SampleMore.env Sample.prebuilt
                          (searchStarted 0%nat
                           :: map (itemArrived 0%nat)
                                [Sample.dataC; Sample.dataD]
                           ++ [searchResolved 0%nat])) Sample.start))).
Proof.
  assert (Hnd : NoDup (map Book.id (inventory Sample.start))).
  { cbn. repeat constructor; cbn; intuition discriminate. }
  assert (Hfresh : forall k, (uuid_calls Sample.start <= k)%nat ->
            ~ In (uuidv4_at SampleMore.env k)
                (map Book.id (inventory Sample.start))).
  { intros k _. apply tally_fresh. }
  assert (Hinj : forall i j, (uuid_calls Sample.start <= i)%nat ->
            (uuid_calls Sample.start <= j)%nat ->
            uuidv4_at SampleMore.env i = uuidv4_at SampleMore.env j -> i = j).
  { intros i j _ _. apply tally_injective. }
  split; [exact Hnd|]. split; [exact Hfresh|]. split; [exact Hinj|].
  exact (inventory_ids_stay_unique SampleMore.env Sample.prebuilt 0%nat
           [Sample.dataC; Sample.dataD] Sample.start Hnd Hfresh Hinj).
Defined.

(** Search 1 starts, receives an item and ends while search 0 holds one
    book. *)
Lemma other_searches_leave_array_witness :
  let es := [searchStarted 1%nat; itemArrived 1%nat Sample.dataD;
             searchResolved 1%nat] in
  let s := exec (runSearchEvents Sample.env Sample.prebuilt
                   [searchStarted 0%nat; itemArrived 0%nat Sample.dataC])
             Sample.start in
  Forall (fun e => searchOf e <> 0%nat) es
  /\ newBooks (exec (runSearchEvents Sample.env Sample.prebuilt es) s) 0%nat
     = newBooks s 0%nat.
Proof.
  intros es s.
  assert (Hothers : Forall (fun e => searchOf e <> 0%nat) es).
  { repeat constructor; cbn; discriminate. }
  split; [exact Hothers|].
  exact (other_searches_leave_array Sample.env Sample.prebuilt 0%nat es s
           Hothers).
Defined.

(** ** The controller as a whole *)

Section WholeController.

Variable env : Env.
Variable prebuiltBooks : list Book.t.

(** X19. No sequence of cart operations touches the displayed list, the
    inventory, the sales log, the loading flag, the current screen or the
    arrays of the searches; in particular the cart can be edited while a
    search is pending. *)
Theorem cart_ops_leave_search_and_sales (ops : list CartOp) (s : State) :
  let s' := exec (runCartOps env ops) s in
  displayedBooks s' = displayedBooks s
  /\ inventory s' = inventory s
  /\ salesData s' = salesData s
  /\ isLoading s' = isLoading s
  /\ currentView s' = currentView s
  /\ newBooks s' = newBooks s.
Proof.
  revert s. induction ops as [|op rest IH]; intros s.
  - cbn. repeat split.
  - cbn zeta. rewrite exec_runCartOps_cons.
    specialize (IH (exec (applyCartOp env op) s)).
    cbn zeta in IH. destruct IH as [H1 [H2 [H3 [H4 [H5 H6]]]]].
    rewrite H1, H2, H3, H4, H5, H6.
    destruct op as [b|bookId|bookId|b]; try (repeat split; fail).
    cbn [applyCartOp]. unfold handleAddToCart, exec, bind, gets.
    cbn [fst snd].
    destruct (find _ (cart s)); repeat split.
Qed.

Lemma sumQuantities_positive (items : list CartItem.t) :
  Forall (fun item => 0 < CartItem.quantity item) items ->
  items <> [] -> 0 < sumQuantities items.
Proof.
  induction items as [|x rest IH]; intros Hpos Hne.
  - contradiction.
  - inversion Hpos as [|y l Hx Hrest]; subst. cbn [sumQuantities].
    destruct rest as [|z rest'].
    + cbn. lia.
    + assert (0 < sumQuantities (z :: rest')) by (apply IH; [auto|discriminate]).
      lia.
Qed.

(** X20. In a cart whose quantities are positive, the badge of the cart
    button is shown exactly when the cart has a line. *)
Theorem badge_iff_cart_not_empty (s : State) :
  Forall (fun item => 0 < CartItem.quantity item) (cart s) ->
  (showsBadge s = true <-> cart s <> []).
Proof.
  intros Hpos. unfold showsBadge. rewrite Z.ltb_lt, totalCartItems_sum.
  split.
  - intros Hsum Hempty. rewrite Hempty in Hsum. cbn in Hsum. lia.
  - now apply sumQuantities_positive.
Qed.

Lemma pushEach_length (notes log : list Notification.t) :
  (List.length log <= 20)%nat -> (List.length (pushEach notes log) <= 20)%nat.
Proof.
  revert log. induction notes as [|n rest IH]; intros log Hlen.
  - exact Hlen.
  - cbn [pushEach fold_left]. apply IH. apply pushNotification_length.
Qed.

Lemma filter_length_bound {A} (p : A -> bool) (l : list A) :
  (List.length (filter p l) <= List.length l)%nat.
Proof.
  induction l as [|x rest IH]; cbn [filter List.length].
  - lia.
  - destruct (p x); cbn [List.length]; lia.
Qed.

Lemma act_keeps_cart (a : Action) (s : State) :
  cartWellFormed (cart s) ->
  cartWellFormed (cart (exec (act env prebuiltBooks a) s)).
Proof.
  intros Hwf. destruct a as [op|e| |id|id| | |b| | | | | | | ]; cbn [act];
    try exact Hwf.
  - now apply wellFormed_step.
  - destruct e; exact Hwf.
  - rewrite exec_handleConfirmCartPurchase. cbn [cart].
    split; constructor.
Qed.

Lemma act_keeps_cap (a : Action) (s : State) :
  (List.length (notifications s) <= 20)%nat ->
  (List.length (notifications (exec (act env prebuiltBooks a) s)) <= 20)%nat.
Proof.
  intros Hlen. destruct a as [op|e| |id|id| | |b| | | | | | | ]; cbn [act];
    try exact Hlen.
  - destruct op as [b|bookId|bookId|b]; try exact Hlen.
    cbn [applyCartOp].
    destruct (in_dec string_dec (Book.id b) (lineIds (cart s))) as [Hin|Hout].
    + rewrite (exec_add_present env b s Hin). exact Hlen.
    + rewrite (exec_add_absent env b s Hout), exec_addNotification.
      cbn [notifications setCart]. apply pushNotification_length.
  - destruct e; exact Hlen.
  - rewrite exec_handleConfirmCartPurchase. cbn [notifications].
    now apply pushEach_length.
  - unfold handleDismissNotification, exec, modify.
    cbn [snd notifications setNotifications].
    pose proof (filter_length_bound
                  (fun n => negb (Notification.id n =? id)%string)
                  (notifications s)). lia.
  - unfold handleMarkAsRead, exec, modify.
    cbn [snd notifications setNotifications]. now rewrite length_map.
  - unfold handleMarkAllAsRead, exec, modify.
    cbn [snd notifications setNotifications]. now rewrite length_map.
  - cbn. lia.
Qed.

Lemma act_appends (a : Action) (s : State) :
  exists added more,
    inventory (exec (act env prebuiltBooks a) s) = inventory s ++ added
    /\ salesData (exec (act env prebuiltBooks a) s) = salesData s ++ more.
Proof.
  destruct a as [op|e| |id|id| | |b| | | | | | | ]; cbn [act];
    try (exists [], []; rewrite !app_nil_r; split; reflexivity).
  - destruct op as [b|bookId|bookId|b];
      try (exists [], []; rewrite !app_nil_r; split; reflexivity).
    cbn [applyCartOp]. exists [], []. rewrite !app_nil_r.
    unfold handleAddToCart, exec, bind, gets. cbn [fst snd].
    destruct (find _ (cart s)); split; reflexivity.
  - destruct e as [k|k bd|k|k];
      try (exists [], []; rewrite !app_nil_r; split; reflexivity).
    cbn [searchStep]. rewrite exec_handleSearch_resolve.
    exists (filter (unseenIn (inventory s)) (newBooks s k)), [].
    split; [reflexivity|]. cbn [salesData]. now rewrite app_nil_r.
  - rewrite exec_handleConfirmCartPurchase.
    exists [], (recordedSales env (date_calls s) (cart s)).
    split; [|reflexivity]. cbn [inventory]. now rewrite app_nil_r.
Qed.

Lemma exec_runActions_cons (a : Action) (rest : list Action) (s : State) :
  exec (runActions env prebuiltBooks (a :: rest)) s
  = exec (runActions env prebuiltBooks rest)
      (exec (act env prebuiltBooks a) s).
Proof. cbn [runActions]. now rewrite exec_bind. Qed.

(** X21. Whatever the user and the searches do, in whatever order (cart
    operations, search events, checkout, notification handlers, changes of
    screen), a cart with one line per book and positive quantities stays so,
    and a notification log of at most 20 entries stays within 20. *)
Theorem controller_keeps_cart_and_log (actions : list Action) (s : State) :
  cartWellFormed (cart s) ->
  (List.length (notifications s) <= 20)%nat ->
  let s' := exec (runActions env prebuiltBooks actions) s in
  NoDup (lineIds (cart s'))
  /\ Forall (fun item => 0 < CartItem.quantity item) (cart s')
  /\ (List.length (notifications s') <= 20)%nat.
Proof.
  revert s. induction actions as [|a rest IH]; intros s Hwf Hlen.
  - cbn. destruct Hwf as [Hnd Hpos]. repeat split; assumption.
  - cbn zeta. rewrite exec_runActions_cons. apply IH.
    + now apply act_keeps_cart.
    + now apply act_keeps_cap.
Qed.

(** X22. Whatever the user and the searches do, in whatever order, the
    inventory and the sales log only grow at their end: the inventory after
    is the inventory before followed by added books, the sales log after is
    the sales log before followed by more records. No book and no sale
    record is ever removed, replaced or moved. *)
Theorem inventory_and_sales_append_only (actions : list Action) (s : State) :
  let s' := exec (runActions env prebuiltBooks actions) s in
  exists added more,
    inventory s' = inventory s ++ added
    /\ salesData s' = salesData s ++ more.
Proof.
  revert s. induction actions as [|a rest IH]; intros s.
  - exists [], []. cbn. now rewrite !app_nil_r.
  - cbn zeta. rewrite exec_runActions_cons.
    destruct (act_appends a s) as [added1 [more1 [Hi1 Hs1]]].
    specialize (IH (exec (act env prebuiltBooks a) s)). cbn zeta in IH.
    destruct IH as [added2 [more2 [Hi2 Hs2]]].
    exists (added1 ++ added2), (more1 ++ more2).
    rewrite Hi2, Hs2, Hi1, Hs1, !app_assoc. split; reflexivity.
Qed.

End WholeController.

(** The sample cart of three units of A. *)
Lemma badge_iff_cart_not_empty_witness :
  Forall (fun item => 0 < CartItem.quantity item) (cart SampleMore.threeOfA)
  /\ (showsBadge SampleMore.threeOfA = true
      <-> cart SampleMore.threeOfA <> []).
Proof.
  assert (Hpos : Forall (fun item => 0 < CartItem.quantity item)
                   (cart SampleMore.threeOfA)).
  { repeat constructor. }
  split; [exact Hpos|].
  exact (badge_iff_cart_not_empty SampleMore.threeOfA Hpos).
Defined.

(** A session on the sample catalog: two additions during a search, a
    checkout, and some housekeeping of the notification panel. *)
Lemma controller_keeps_cart_and_log_witness :
  cartWellFormed (cart Sample.start)
  /\ (List.length (notifications Sample.start) <= 20)%nat
  /\ let actions :=
       [searchAction (searchStarted 0%nat); cartAction (add Sample.bookA);
        searchAction (itemArrived 0%nat Sample.dataC);
        cartAction (add Sample.bookA); cartAction (decrease "B");
        searchAction (searchResolved 0%nat); proceedToCheckout;
        confirmCartPurchase; markAllAsRead; dismissNotification "uuid-0";
        cartAction (add Sample.bookB)] in
     let s' := exec (runActions Sample.env Sample.prebuilt actions)
                 Sample.start in
     NoDup (lineIds (cart s'))
     /\ Forall (fun item => 0 < CartItem.quantity item) (cart s')
     /\ (List.length (notifications s') <= 20)%nat.
Proof.
  assert (Hwf : cartWellFormed (cart Sample.start)).
  { split; constructor. }
  assert (Hlen : (List.length (notifications Sample.start) <= 20)%nat).
  { cbn. lia. }
  split; [exact Hwf|]. split; [exact Hlen|].
  intros actions.
  exact (controller_keeps_cart_and_log Sample.env Sample.prebuilt actions
           Sample.start Hwf Hlen).
Defined.

(** ** Searches that settle while others are pending *)

Section SettlingSearches.

Variable env : Env.
Variable prebuiltBooks : list Book.t.

(** X23. The settling of any search clears the loading flag, whatever other
    searches are still pending. A rejected search moreover puts the prebuilt
    catalog on display even when it was superseded, and the next item of a
    pending search then puts that search's own list back, with the new book
    at its end. *)
Theorem settling_clears_loading_for_all
    (es : list SearchEvent) (sid pending : SearchId) (bookData : BookData.t)
    (s : State) :
  let before := exec (runSearchEvents env prebuiltBooks es) s in
  let resolved := exec (handleSearch_resolve sid) before in
  let rejected := exec (handleSearch_reject prebuiltBooks sid) before in
  let next := exec (onItem env pending bookData) rejected in
  isLoading resolved = false
  /\ displayedBooks resolved = displayedBooks before
  /\ isLoading rejected = false
  /\ displayedBooks rejected = prebuiltBooks
  /\ inventory rejected = inventory before
  /\ displayedBooks next
     = newBooks before pending
       ++ [bookAt env (uuid_calls before) (random_calls before) bookData]
  /\ isLoading next = false.
Proof.
  intros before resolved rejected next.
  unfold next, rejected, resolved.
  rewrite exec_onItem, exec_handleSearch_reject, exec_handleSearch_resolve.
  repeat split.
Qed.

End SettlingSearches.

(** ** Identifiers of the notification log *)

Section NotificationIds.

Variable env : Env.
Variable prebuiltBooks : list Book.t.

Hypothesis uuid_injective :
  forall i j, uuidv4_at env i = uuidv4_at env j -> i = j.

Lemma NoDup_firstn {A} (k : nat) (l : list A) : NoDup l -> NoDup (firstn k l).
Proof.
  intros Hnd. rewrite <- (firstn_skipn k l) in Hnd.
  now apply NoDup_app_remove_r in Hnd.
Qed.

Lemma issued_weaken (u u' : nat) (log : list Notification.t) :
  (u <= u')%nat -> logIdsIssued env u log -> logIdsIssued env u' log.
Proof.
  intros Hle [Hnd Hall]. split; [exact Hnd|].
  eapply Forall_impl; [|exact Hall].
  intros n [k [Hk Hid]]. exists k. split; [lia|exact Hid].
Qed.

Lemma issued_push (u : nat) (m : string) (t : Z) (log : list Notification.t) :
  logIdsIssued env u log ->
  logIdsIssued env (S u)
    (pushNotification (Notification.mk (uuidv4_at env u) m t false) log).
Proof.
  intros [Hnd Hall]. unfold pushNotification. split.
  - cbn [map Notification.id]. constructor.
    + intros Hin. apply in_map_iff in Hin. destruct Hin as [n [Hid Hn]].
      apply firstn_incl in Hn. rewrite Forall_forall in Hall.
      destruct (Hall n Hn) as [k [Hk Hk']].
      rewrite Hk' in Hid. apply uuid_injective in Hid. lia.
    + rewrite <- firstn_map. now apply NoDup_firstn.
  - constructor.
    + exists u. split; [lia|reflexivity].
    + apply Forall_forall. intros n Hn. apply firstn_incl in Hn.
      rewrite Forall_forall in Hall. destruct (Hall n Hn) as [k [Hk Hid]].
      exists k. split; [lia|exact Hid].
Qed.

Lemma issued_recordedNotes (items : list CartItem.t) (u d : nat)
    (log : list Notification.t) :
  logIdsIssued env u log ->
  logIdsIssued env (u + List.length items)
    (pushEach (recordedNotes env u d items) log).
Proof.
  revert u d log. induction items as [|item rest IH]; intros u d log Hlog.
  - cbn. now rewrite Nat.add_0_r.
  - cbn [recordedNotes pushEach fold_left List.length].
    replace (u + S (List.length rest))%nat with (S u + List.length rest)%nat
      by lia.
    apply (IH (S u)). now apply issued_push.
Qed.

Lemma issued_filter (p : Notification.t -> bool) (u : nat)
    (log : list Notification.t) :
  logIdsIssued env u log -> logIdsIssued env u (filter p log).
Proof.
  intros [Hnd Hall]. split.
  - clear Hall. induction log as [|n rest IH]; cbn [filter map].
    + constructor.
    + cbn [map] in Hnd. inversion Hnd as [|x l Hnotin Hrest]; subst.
      destruct (p n); cbn [map]; auto. constructor; auto.
      intros Hin. apply Hnotin. apply in_map_iff in Hin.
      destruct Hin as [m [Hid Hm]]. apply filter_In in Hm.
      apply in_map_iff. exists m. tauto.
  - apply Forall_forall. intros n Hn. apply filter_In in Hn.
    rewrite Forall_forall in Hall. apply Hall. tauto.
Qed.

Lemma issued_map (f : Notification.t -> Notification.t) (u : nat)
    (log : list Notification.t) :
  (forall n, Notification.id (f n) = Notification.id n) ->
  logIdsIssued env u log -> logIdsIssued env u (map f log).
Proof.
  intros Hid [Hnd Hall]. split.
  - rewrite map_map. erewrite map_ext; [exact Hnd|]. exact Hid.
  - apply Forall_forall. intros n Hn. apply in_map_iff in Hn.
    destruct Hn as [m [Hm Hmin]]. subst n.
    rewrite Forall_forall in Hall. destruct (Hall m Hmin) as [k [Hk Hk']].
    exists k. split; [exact Hk|]. now rewrite Hid.
Qed.

Lemma act_keeps_issued (a : Action) (s : State) :
  logIdsIssued env (uuid_calls s) (notifications s) ->
  logIdsIssued env (uuid_calls (exec (act env prebuiltBooks a) s))
    (notifications (exec (act env prebuiltBooks a) s)).
Proof.
  intros Hlog. destruct a as [op|e| |id|id| | |b| | | | | | | ]; cbn [act];
    try exact Hlog.
  - destruct op as [b|bookId|bookId|b]; try exact Hlog.
    cbn [applyCartOp].
    destruct (in_dec string_dec (Book.id b) (lineIds (cart s))) as [Hin|Hout].
    + rewrite (exec_add_present env b s Hin). exact Hlog.
    + rewrite (exec_add_absent env b s Hout), exec_addNotification.
      cbn [notifications uuid_calls setCart]. now apply issued_push.
  - destruct e as [k|k bd|k|k]; try exact Hlog.
    cbn [searchStep]. rewrite exec_onItem. cbn [notifications uuid_calls].
    apply (issued_weaken (uuid_calls s)); [lia|exact Hlog].
  - rewrite exec_handleConfirmCartPurchase. cbn [notifications uuid_calls].
    now apply issued_recordedNotes.
  - unfold handleDismissNotification, exec, modify.
    cbn [snd notifications uuid_calls setNotifications].
    now apply issued_filter.
  - unfold handleMarkAsRead, exec, modify.
    cbn [snd notifications uuid_calls setNotifications].
    apply issued_map; [|exact Hlog].
    intros n. destruct (Notification.id n =? id)%string; reflexivity.
  - unfold handleMarkAllAsRead, exec, modify.
    cbn [snd notifications uuid_calls setNotifications].
    apply issued_map; [|exact Hlog]. reflexivity.
  - split; constructor.
Qed.

(** X24. When the identifier source never repeats an id and the log holds
    pairwise distinct ids issued by it, the notifications of the log keep
    pairwise distinct ids whatever the user and the searches do, in whatever
    order. *)
Theorem notification_ids_stay_unique (actions : list Action) (s : State) :
  logIdsIssued env (uuid_calls s) (notifications s) ->
  let s' := exec (runActions env prebuiltBooks actions) s in
  NoDup (map Notification.id (notifications s')).
Proof.
  intros Hlog s'.
  assert (H : logIdsIssued env (uuid_calls s') (notifications s')).
  { unfold s'. clear s'. revert s Hlog.
    induction actions as [|a rest IH]; intros s Hlog.
    - exact Hlog.
    - rewrite exec_runActions_cons. apply IH. now apply act_keeps_issued. }
  apply H.
Qed.

End NotificationIds.

Section DismissOne.

Lemma filter_out_one (id : string) (log : list Notification.t) :
  NoDup (map Notification.id log) -> In id (map Notification.id log) ->
  S (List.length
       (filter (fun n => negb (Notification.id n =? id)%string) log))
  = List.length log.
Proof.
  induction log as [|n rest IH]; cbn [map filter List.length]; intros Hnd Hin.
  - contradiction.
  - inversion Hnd as [|x l Hnotin Hrest]; subst.
    destruct (Notification.id n =? id)%string eqn:E; cbn [negb List.length].
    + apply String.eqb_eq in E. subst id. f_equal. f_equal.
      apply filter_all. intros m Hm. apply negb_true_iff.
      apply String.eqb_neq. intros Heq. apply Hnotin. rewrite <- Heq.
      now apply in_map.
    + destruct Hin as [Hin|Hin].
      * rewrite Hin, String.eqb_refl in E. discriminate.
      * f_equal. now apply IH.
Qed.

(** X25. In a log whose ids are pairwise distinct, dismissing an id that is
    in the log takes away exactly one notification. *)
Theorem dismiss_takes_exactly_one (id : string) (s : State) :
  NoDup (map Notification.id (notifications s)) ->
  In id (map Notification.id (notifications s)) ->
  let s' := exec (handleDismissNotification id) s in
  S (List.length (notifications s')) = List.length (notifications s)
  /\ ~ In id (map Notification.id (notifications s')).
Proof.
  intros Hnd Hin s'. unfold s', handleDismissNotification, exec, modify.
  cbn [snd notifications setNotifications]. split.
  - now apply filter_out_one.
  - intros Hin'. apply in_map_iff in Hin'. destruct Hin' as [n [Hid Hn]].
    apply filter_In in Hn. destruct Hn as [_ Hne].
    rewrite Hid, String.eqb_refl in Hne. discriminate.
Qed.

End DismissOne.

(** A session on the sample catalog with the identifier source that never
    repeats. *)
Lemma notification_ids_stay_unique_witness :
  (forall i j, uuidv4_at SampleMore.env i = uuidv4_at SampleMore.env j -> i = j)
  /\ logIdsIssued SampleMore.env (uuid_calls Sample.start)
       (notifications Sample.start)
  /\ let actions :=
       [cartAction (add Sample.bookA); cartAction (add Sample.bookB);
        searchAction (searchStarted 0%nat);
        searchAction (itemArrived 0%nat Sample.dataC);
        confirmCartPurchase; markAsRead "u"; dismissNotification "uu"] in
     NoDup (map Notification.id
              (notifications
                 (exec (runActions SampleMore.env Sample.prebuilt actions)
                    Sample.start))).
Proof.
  assert (Hlog : logIdsIssued SampleMore.env (uuid_calls Sample.start)
                   (notifications Sample.start)).
  { split; constructor. }
  split; [exact tally_injective|]. split; [exact Hlog|].
  intros actions.
  exact (notification_ids_stay_unique SampleMore.env Sample.prebuilt
           tally_injective actions Sample.start Hlog).
Defined.

(** The sample log of two entries, the older one dismissed. *)
Lemma dismiss_takes_exactly_one_witness :
  NoDup (map Notification.id (notifications SampleMore.withLog))
  /\ In "n1" (map Notification.id (notifications SampleMore.withLog))
  /\ S (List.length
          (notifications
             (exec (handleDismissNotification "n1") SampleMore.withLog)))
     = List.length (notifications SampleMore.withLog).
Proof.
  assert (Hnd : NoDup (map Notification.id (notifications SampleMore.withLog))).
  { cbn. repeat constructor; cbn; intuition discriminate. }
  assert (Hin : In "n1"
                  (map Notification.id (notifications SampleMore.withLog))).
  { cbn. tauto. }
  split; [exact Hnd|]. split; [exact Hin|].
  exact (proj1 (dismiss_takes_exactly_one "n1" SampleMore.withLog Hnd Hin)).
Defined.
